(** * CampusConnect: the matching engine, the application life cycle,
      opportunity posting and credential verification of
      [campus_connect.py], embedded in Rocq.

    Conventions of the embedding.
    - Python [int] is [Z]; [str] is [string] (a sequence of 8-bit
      characters), and [str.lower] acts on the letters A-Z only, which is
      what it does on ASCII text.
    - [T | None] is [option T]; Python truthiness is written out where the
      source relies on it ([truthy_str], [truthy_int], [truthy_bool]).
    - A [set] of strings is a [gset string]; [len] of a set is [size].
    - A table of the store is the list of its rows in primary-key order,
      which is the order [select(...)] enumerates them in; a row read back
      from the store carries its primary key, so [id] is a [Z] here.
    - What the source draws from the environment (the uuid of a new row,
      the clock, the bcrypt check) is an explicit argument. *)

From Stdlib Require Import ZArith Lia Bool Ascii String.
From Stdlib Require Import Sorting.Sorted Sorting.Permutation.
From stdpp Require Import base gmap sets list strings.

Local Open Scope string_scope.
Local Open Scope Z_scope.

(** ** Strings: the fragment of [str] the source uses *)

Module Text.

Definition is_upper (c : ascii) : bool :=
  let n := nat_of_ascii c in (Nat.leb 65 n) && (Nat.leb n 90).

Definition lower_ascii (c : ascii) : ascii :=
  if is_upper c then ascii_of_nat (nat_of_ascii c + 32) else c.

(** [s.lower()] *)
Fixpoint lower (s : string) : string :=
  match s with
  | EmptyString => EmptyString
  | String c r => String (lower_ascii c) (lower r)
  end.

Definition comma : ascii := ","%char.

(** [s.split(",")]: never empty, [""] splits into [[""]]. *)
Fixpoint split_comma (s : string) : list string :=
  match s with
  | EmptyString => [EmptyString]
  | String c r =>
      if Ascii.eqb c comma then EmptyString :: split_comma r
      else match split_comma r with
           | [] => [String c EmptyString]
           | t :: ts => String c t :: ts
           end
  end.

(** [needle in hay] on strings. *)
Fixpoint contains (needle hay : string) : bool :=
  String.prefix needle hay
  || match hay with
     | EmptyString => false
     | String _ r => contains needle r
     end.

(** Truthiness of [str | None], [int | None] and [bool | None]. *)
Definition truthy_str (o : option string) : bool :=
  match o with
  | None => false
  | Some s => negb (String.eqb s EmptyString)
  end.

Definition truthy_int (o : option Z) : bool :=
  match o with
  | None => false
  | Some n => negb (n =? 0)
  end.

Definition truthy_bool (o : option bool) : bool :=
  match o with
  | None => false
  | Some b => b
  end.

(** [o or d] for an optional value with default [d]. *)
Definition or_str (o : option string) (d : string) : string :=
  if truthy_str o then default d o else d.

Definition or_int (o : option Z) (d : Z) : Z :=
  if truthy_int o then default d o else d.

Definition or_bool (o : option bool) (d : bool) : bool :=
  if truthy_bool o then default d o else d.

End Text.

(** ** The data model *)

Inductive Role : Set := student | placementCell | facultyMentor | employer.

Inductive ApplicationStatus : Set := applied | approved | rejected.

Record User : Type := mkUser {
  user_id : Z;
  name : string;
  email : string;
  role : Role;
  user_department : option string;
  hashed_password : string;
  location_pref : option string;
  min_stipend_pref : option Z;
  max_stipend_pref : option Z;
  placement_conversion_pref : option bool;
  skills : option string
}.

Record Opportunity : Type := mkOpportunity {
  opp_id : Z;
  opp_uid : string;
  title : string;
  company : string;
  description : string;
  required_skills : string;
  department : string;
  stipend : Z;
  duration : string;
  location : string;
  placement_conversion : bool;
  application_deadline : option Z;
  posted_by : option Z;
  created_at : Z
}.

Record Application : Type := mkApplication {
  app_id : Z;
  app_uid : string;
  student_id : Z;
  opportunity_id : Z;
  status : ApplicationStatus;
  mentor_status : option string;
  mentor_comments : option string;
  applied_date : Z
}.

(** ** The recommendation tab of [student_dashboard] *)

Module Recommend.
Import Text.

(** [set(s.lower().split(","))] *)
Definition skill_set (s : string) : gset string :=
  list_to_set (split_comma (lower s)).

(** [student_skills = set((user.skills or "").lower().split(","))] *)
Definition student_skills (u : User) : gset string :=
  skill_set (or_str (skills u) "").

(** [opp_skills = set(opp.required_skills.lower().split(","))] *)
Definition opp_skills (o : Opportunity) : gset string :=
  skill_set (required_skills o).

(** The four guards of the loop body, in source order. *)
Definition location_match (u : User) (o : Opportunity) : bool :=
  truthy_str (location_pref u)
  && contains (lower (default "" (location_pref u))) (lower (location o)).

Definition min_stipend_ok (u : User) (o : Opportunity) : bool :=
  truthy_int (min_stipend_pref u)
  && (default 0 (min_stipend_pref u) <=? stipend o).

Definition max_stipend_ok (u : User) (o : Opportunity) : bool :=
  truthy_int (max_stipend_pref u)
  && (stipend o <=? default 0 (max_stipend_pref u)).

Definition conversion_match (u : User) (o : Opportunity) : bool :=
  truthy_bool (placement_conversion_pref u) && placement_conversion o.

(** [len(student_skills & opp_skills)] *)
Definition skill_matches (u : User) (o : Opportunity) : Z :=
  Z.of_nat (size (student_skills u ∩ opp_skills o)).

(** The value of [score] at the end of one iteration: it starts at 0 and
    each statement adds to it in turn. *)
Definition score (u : User) (o : Opportunity) : Z :=
  let s0 := 0 in
  let s1 := if location_match u o then s0 + 1 else s0 in
  let s2 := if min_stipend_ok u o then s1 + 1 else s1 in
  let s3 := if max_stipend_ok u o then s2 + 1 else s2 in
  let s4 := if conversion_match u o then s3 + 1 else s3 in
  s4 + skill_matches u o.

Definition Match : Type := Opportunity * Z * Z.

Definition match_opp (m : Match) : Opportunity := fst (fst m).
Definition match_score (m : Match) : Z := snd (fst m).
Definition match_skills (m : Match) : Z := snd m.

(** The loop over [opps]: [matches.append(...)] when [score > 0]. *)
Fixpoint collect (u : User) (opps : list Opportunity) : list Match :=
  match opps with
  | [] => []
  | o :: rest =>
      if 0 <? score u o
      then (o, score u o, skill_matches u o) :: collect u rest
      else collect u rest
  end.

(** [matches.sort(key=lambda x: x[1], reverse=True)]: a stable sort by
    descending key.  An element is placed before the first element whose
    key is not larger than its own, so elements of equal key keep the
    order they had. *)
Fixpoint insert_desc (m : Match) (l : list Match) : list Match :=
  match l with
  | [] => [m]
  | y :: l' =>
      if match_score m <? match_score y
      then y :: insert_desc m l'
      else m :: y :: l'
  end.

Fixpoint sort_desc (l : list Match) : list Match :=
  match l with
  | [] => []
  | m :: l' => insert_desc m (sort_desc l')
  end.

(** The tuple appended for an opportunity, and the order of the ranking:
    [desc a b] when [a] may stand before [b]. *)
Definition entry (u : User) (o : Opportunity) : Match :=
  (o, score u o, skill_matches u o).

Definition desc (a b : Match) : Prop := match_score b ≤ match_score a.

(** The list the tab renders, in rendering order. *)
Definition ranked (u : User) (opps : list Opportunity) : list Match :=
  sort_desc (collect u opps).

Inductive View : Type :=
| Info (msg : string)
| Listing (ms : list Match).

Definition recommended (u : User) (opps : list Opportunity) : View :=
  match collect u opps with
  | [] => Info "No opportunities match your preferences yet."
  | _ :: _ => Listing (ranked u opps)
  end.

(** The token sets as the specification words them: split the text at
    its commas, then lowercase every token. *)
Definition token_set (s : string) : gset string :=
  list_to_set (map lower (split_comma s)).


(** The worked scenario: a student and the seeded opportunity. *)
Definition scenario_student : User :=
  {| user_id := 1; name := "Rajesh Kumar"; email := "student@example.com";
     role := student; user_department := Some "Computer Science";
     hashed_password := "$2b$12$demo";
     location_pref := Some "Ranchi"; min_stipend_pref := Some 10000;
     max_stipend_pref := None; placement_conversion_pref := Some true;
     skills := Some "python,react,sql" |}.

Definition scenario_opp : Opportunity :=
  {| opp_id := 1; opp_uid := "opp-00000001";
     title := "Frontend Developer Intern"; company := "Tech Solutions";
     description := "Work on React projects";
     required_skills := "React,JS,HTML,CSS"; department := "CSE";
     stipend := 15000; duration := "6 months"; location := "Ranchi";
     placement_conversion := true; application_deadline := Some 739616;
     posted_by := Some 2; created_at := 0 |}.

(** A student who knows one of the three skills and has set nothing
    else. *)
Definition novice_student : User :=
  {| user_id := 5; name := "Asha Singh"; email := "asha@example.com";
     role := student; user_department := None;
     hashed_password := "$2b$12$demo";
     location_pref := None; min_stipend_pref := None;
     max_stipend_pref := None; placement_conversion_pref := Some false;
     skills := Some "React" |}.

(** An opportunity that shares nothing with [scenario_student]. *)
Definition unrelated_opp : Opportunity :=
  {| opp_id := 2; opp_uid := "opp-00000002";
     title := "Field Surveyor"; company := "Geo Works";
     description := "Survey work"; required_skills := "GIS,Drafting";
     department := "Civil"; stipend := 5000; duration := "2 months";
     location := "Delhi"; placement_conversion := false;
     application_deadline := None; posted_by := Some 2; created_at := 1 |}.

(** Two opportunities that each earn [scenario_student] one point, by
    location and by a shared skill. *)
Definition ranchi_opp : Opportunity :=
  {| opp_id := 3; opp_uid := "opp-00000003";
     title := "Backend Intern"; company := "Coal Systems";
     description := "Service work"; required_skills := "Go";
     department := "CSE"; stipend := 8000; duration := "3 months";
     location := "Ranchi, Jharkhand"; placement_conversion := false;
     application_deadline := None; posted_by := Some 2; created_at := 2 |}.

Definition remote_sql_opp : Opportunity :=
  {| opp_id := 4; opp_uid := "opp-00000004";
     title := "Reporting Intern"; company := "Ledger Co";
     description := "Reports"; required_skills := "Excel,SQL";
     department := "Commerce"; stipend := 5000; duration := "2 months";
     location := "Remote"; placement_conversion := false;
     application_deadline := None; posted_by := Some 2; created_at := 3 |}.

(** What one rendered entry shows of its opportunity, for the examples. *)
Definition summary (m : Match) : Z * Z * Z :=
  (opp_id (match_opp m), match_score m, match_skills m).

End Recommend.


(** ** The preferences tab of [student_dashboard] *)

Module Preferences.
Import Text.

Record PrefsForm : Type := mkPrefsForm {
  loc : string;
  min_stip : Z;
  max_stip : Z;
  conv : bool;
  skills_input : string
}.

(** The [value=] each widget starts from: [user.location_pref or ""],
    [user.min_stipend_pref or 0], and so on. *)
Definition form_defaults (u : User) : PrefsForm :=
  {| loc := or_str (location_pref u) "";
     min_stip := or_int (min_stipend_pref u) 0;
     max_stip := or_int (max_stipend_pref u) 0;
     conv := or_bool (placement_conversion_pref u) false;
     skills_input := or_str (skills u) "" |}.

(** The tuple assignment under [if submitted:]. *)
Definition assign_prefs (f : PrefsForm) (u : User) : User :=
  {| user_id := user_id u; name := name u; email := email u;
     role := role u; user_department := user_department u;
     hashed_password := hashed_password u;
     location_pref := Some (loc f);
     min_stipend_pref := Some (min_stip f);
     max_stipend_pref := Some (max_stip f);
     placement_conversion_pref := Some (conv f);
     skills := Some (skills_input f) |}.

(** The same user with the minimum (maximum) stipend preference
    replaced, used to compare a stored value with an unset one. *)
Definition with_min_stipend_pref (v : option Z) (u : User) : User :=
  {| user_id := user_id u; name := name u; email := email u;
     role := role u; user_department := user_department u;
     hashed_password := hashed_password u;
     location_pref := location_pref u;
     min_stipend_pref := v;
     max_stipend_pref := max_stipend_pref u;
     placement_conversion_pref := placement_conversion_pref u;
     skills := skills u |}.

Definition with_max_stipend_pref (v : option Z) (u : User) : User :=
  {| user_id := user_id u; name := name u; email := email u;
     role := role u; user_department := user_department u;
     hashed_password := hashed_password u;
     location_pref := location_pref u;
     min_stipend_pref := min_stipend_pref u;
     max_stipend_pref := v;
     placement_conversion_pref := placement_conversion_pref u;
     skills := skills u |}.

(** [novice_student] after saving the form without touching it. *)
Definition saved_novice : User :=
  assign_prefs (form_defaults Recommend.novice_student)
    Recommend.novice_student.

End Preferences.

(** ** The store and the operations that write to it *)

Record Store : Type := mkStore {
  users : list User;
  opportunities : list Opportunity;
  applications : list Application
}.

Module Portal.
Import Text Preferences.

(** What a new row takes from the environment: [uuid.uuid4().hex] and
    [datetime.utcnow()]. *)
Record Env : Type := mkEnv {
  uuid_hex : string;
  utcnow : Z
}.

(** The message a handler shows: [st.success], [st.warning], [st.error]. *)
Inductive Flash : Type :=
| Success (msg : string)
| Warning (msg : string)
| Failure (msg : string).

(** The integer primary key the store gives a new row: one more than the
    largest key of the table, 1 for an empty table. *)
Definition next_id (ids : list Z) : Z := 1 + foldr Z.max 0 ids.

(** [uuid.uuid4().hex[:8]] *)
Definition hex8 (e : Env) : string := String.substring 0 8 (uuid_hex e).

(** [session.get(User, id)] and [session.get(Opportunity, id)] *)
Definition get_user (us : list User) (i : Z) : option User :=
  head (filter (λ u, user_id u = i) us).

Definition get_opportunity (os : list Opportunity) (i : Z)
  : option Opportunity :=
  head (filter (λ o, opp_id o = i) os).

(** [select(Application).where((student_id == user.id) &
    (opportunity_id == opp.id))] followed by [.first()]. *)
Definition existing_application (apps : list Application) (sid oid : Z)
  : option Application :=
  head (filter (λ a, student_id a = sid ∧ opportunity_id a = oid) apps).

(** [Application(student_id=user.id, opportunity_id=opp.id)] once
    committed. *)
Definition new_application (e : Env) (apps : list Application)
    (sid oid : Z) : Application :=
  {| app_id := next_id (map app_id apps);
     app_uid := "app-" +:+ hex8 e;
     student_id := sid;
     opportunity_id := oid;
     status := applied;
     mentor_status := Some "pending";
     mentor_comments := None;
     applied_date := utcnow e |}.

(** The body of [if st.button(f"Apply to {opp.title}", key=opp.uid):]. *)
Definition apply_to_opportunity (e : Env) (u : User) (o : Opportunity)
    (s : Store) : Store * Flash :=
  match existing_application (applications s) (user_id u) (opp_id o) with
  | Some _ => (s, Warning "Already applied!")
  | None =>
      ({| users := users s;
          opportunities := opportunities s;
          applications :=
            applications s
            ++ [new_application e (applications s) (user_id u) (opp_id o)] |},
       Success "Applied successfully!")
  end.

(** [session.add(u); session.commit()] for the row [session.get] returned:
    the first row with that key is replaced. *)
Fixpoint update_user (i : Z) (g : User → User) (us : list User)
  : list User :=
  match us with
  | [] => []
  | r :: rest =>
      if decide (user_id r = i) then g r :: rest
      else r :: update_user i g rest
  end.

(** The body of [if submitted:] in the preferences form.  When the row is
    missing, [session.get] yields [None] and the assignment raises: the
    store keeps its contents. *)
Definition save_preferences (u : User) (f : PrefsForm) (s : Store)
  : Store * option Flash :=
  match get_user (users s) (user_id u) with
  | None => (s, None)
  | Some _ =>
      ({| users := update_user (user_id u) (assign_prefs f) (users s);
          opportunities := opportunities s;
          applications := applications s |},
       Some (Success "Preferences saved!"))
  end.

(** [select(Application).where(Application.mentor_status == "pending")] *)
Definition is_pending (a : Application) : bool :=
  match mentor_status a with
  | Some m => String.eqb m "pending"
  | None => false
  end.

(** [app.mentor_status, app.status, app.mentor_comments = m, s, c] *)
Definition set_decision (m : string) (s : ApplicationStatus) (c : string)
    (a : Application) : Application :=
  {| app_id := app_id a; app_uid := app_uid a;
     student_id := student_id a; opportunity_id := opportunity_id a;
     status := s;
     mentor_status := Some m;
     mentor_comments := Some c;
     applied_date := applied_date a |}.

(** [st.button(label, key=k)] is true in the run its press triggered, and
    at most one button is pressed per run; [pressed] is the key of that
    button.  Keys are taken to be distinct across the page, which Streamlit
    itself enforces. *)
Definition button (pressed : option string) (k : string) : bool :=
  match pressed with
  | Some p => String.eqb p k
  | None => false
  end.

(** The two buttons rendered for one pending application. *)
Definition decide_row (pressed : option string) (a : Application)
  : Application :=
  let a1 :=
    if button pressed ("appr-" +:+ app_uid a)
    then set_decision "approved" approved "Approved" a else a in
  if button pressed ("rej-" +:+ app_uid a)
  then set_decision "rejected" rejected "Rejected" a1 else a1.

(** The loop of [faculty_dashboard] over the pending rows, written over
    the whole table: a row that the query does not select is skipped.
    The flag is false when rendering a row raised (its student or its
    opportunity is missing, so [.name] or [.title] is read off [None]);
    the rows after it are then not reached. *)
Fixpoint faculty_loop (us : list User) (os : list Opportunity)
    (pressed : option string) (apps : list Application)
  : list Application * bool :=
  match apps with
  | [] => ([], true)
  | a :: rest =>
      if is_pending a then
        match get_user us (student_id a),
              get_opportunity os (opportunity_id a) with
        | Some _, Some _ =>
            let '(rest', ok) := faculty_loop us os pressed rest in
            (decide_row pressed a :: rest', ok)
        | _, _ => (a :: rest, false)
        end
      else
        let '(rest', ok) := faculty_loop us os pressed rest in
        (a :: rest', ok)
  end.

Definition faculty_dashboard (pressed : option string) (s : Store)
  : Store * bool :=
  let '(apps, ok) :=
    faculty_loop (users s) (opportunities s) pressed (applications s) in
  ({| users := users s; opportunities := opportunities s;
      applications := apps |}, ok).

(** The posting form of [placement_employer_dashboard]. *)
Record PostForm : Type := mkPostForm {
  f_title : string;
  f_company : string;
  f_desc : string;
  f_skills : string;
  f_dept : string;
  f_stipend : Z;
  f_dur : string;
  f_loc : string;
  f_conv : bool;
  f_deadline : Z
}.

Definition filled (s : string) : bool := negb (String.eqb s "").

(** [title and company and desc and skills and dept and loc] *)
Definition mandatory_filled (f : PostForm) : bool :=
  filled (f_title f) && filled (f_company f) && filled (f_desc f)
  && filled (f_skills f) && filled (f_dept f) && filled (f_loc f).

Definition new_opportunity (e : Env) (os : list Opportunity) (u : User)
    (f : PostForm) : Opportunity :=
  {| opp_id := next_id (map opp_id os);
     opp_uid := "opp-" +:+ hex8 e;
     title := f_title f; company := f_company f;
     description := f_desc f; required_skills := f_skills f;
     department := f_dept f; stipend := f_stipend f;
     duration := f_dur f; location := f_loc f;
     placement_conversion := f_conv f;
     application_deadline := Some (f_deadline f);
     posted_by := Some (user_id u);
     created_at := utcnow e |}.

(** The body of [if submitted:] in the posting form. *)
Definition post_opportunity (e : Env) (u : User) (f : PostForm)
    (s : Store) : Store * Flash :=
  if negb (mandatory_filled f)
  then (s, Warning "Please fill all mandatory fields!")
  else
    ({| users := users s;
        opportunities :=
          opportunities s ++ [new_opportunity e (opportunities s) u f];
        applications := applications s |},
     Success "Posted successfully!").

(** Every interaction that writes to the store. *)
Inductive Action : Type :=
| PressApply (e : Env) (u : User) (o : Opportunity)
| SubmitPrefs (u : User) (f : PrefsForm)
| FacultyRun (pressed : option string)
| SubmitPost (e : Env) (u : User) (f : PostForm).

Definition step (s : Store) (a : Action) : Store :=
  match a with
  | PressApply e u o => fst (apply_to_opportunity e u o s)
  | SubmitPrefs u f => fst (save_preferences u f s)
  | FacultyRun pressed => fst (faculty_dashboard pressed s)
  | SubmitPost e u f => fst (post_opportunity e u f s)
  end.

Definition run (s : Store) (acts : list Action) : Store :=
  foldl step s acts.

(** Whether a row of the application table has been decided. *)
Definition decided (a : Application) : Prop :=
  mentor_status a = Some "approved" ∨ mentor_status a = Some "rejected".

(** A small store and the stores a student and a mentor reach from it. *)
Definition placement_user : User :=
  {| user_id := 2; name := "Placement Cell";
     email := "placement@example.com"; role := placementCell;
     user_department := None; hashed_password := "$2b$12$demo";
     location_pref := None; min_stipend_pref := None;
     max_stipend_pref := None; placement_conversion_pref := Some false;
     skills := None |}.

Definition demo_store : Store :=
  {| users := [Recommend.scenario_student; placement_user];
     opportunities := [Recommend.scenario_opp];
     applications := [] |}.

Definition env1 : Env :=
  {| uuid_hex := "0123456789abcdef0123456789abcdef"; utcnow := 100 |}.

Definition env2 : Env :=
  {| uuid_hex := "fedcba9876543210fedcba9876543210"; utcnow := 200 |}.

Definition first_application : Application :=
  new_application env1 [] 1 1.

Definition applied_store : Store :=
  fst (apply_to_opportunity env1 Recommend.scenario_student
         Recommend.scenario_opp demo_store).

Definition approved_store : Store :=
  fst (faculty_dashboard (Some "appr-app-01234567") applied_store).

Definition approved_application : Application :=
  set_decision "approved" approved "Approved" first_application.

Definition complete_form : PostForm :=
  {| f_title := "Data Analyst Intern"; f_company := "Insight Labs";
     f_desc := "Dashboards and reports"; f_skills := "SQL,Excel";
     f_dept := "CSE"; f_stipend := 12000; f_dur := "3 months";
     f_loc := "Ranchi"; f_conv := false; f_deadline := 739700 |}.

Definition form_without_company : PostForm :=
  {| f_title := "Data Analyst Intern"; f_company := "";
     f_desc := "Dashboards and reports"; f_skills := "SQL,Excel";
     f_dept := "CSE"; f_stipend := 12000; f_dur := "3 months";
     f_loc := "Ranchi"; f_conv := false; f_deadline := 739700 |}.

End Portal.

(** ** Credential verification *)

Module Auth.

Section Verify.
(** [pwd_context.verify(password, hash)], the bcrypt check. *)
Variable pwd_verify : string → string → bool.

(** [select(User).where(User.email == email)] followed by [.first()]. *)
Definition first_by_email (us : list User) (e : string) : option User :=
  head (filter (λ u, email u = e) us).

Definition verify_user (us : list User) (e p : string) : option User :=
  match first_by_email us e with
  | Some u => if pwd_verify p (hashed_password u) then Some u else None
  | None => None
  end.

(** What [login_ui] does with the answer: the user id goes into the
    session, or one fixed error is shown. *)
Inductive LoginResult : Type :=
| LoggedIn (uid : Z)
| LoginError (msg : string).

Definition login_ui (us : list User) (e p : string) : LoginResult :=
  match verify_user us e p with
  | Some u => LoggedIn (user_id u)
  | None =>
      LoginError "Invalid credentials (try student@example.com / 123)"
  end.
End Verify.

(** A stand-in for the bcrypt check, for running the examples: the
    stored text is the password behind a fixed prefix. *)
Definition demo_verify (p h : string) : bool :=
  String.eqb ("hash:" +:+ p) h.

Definition demo_student_row : User :=
  {| user_id := 1; name := "Rajesh Kumar";
     email := "student@example.com"; role := student;
     user_department := Some "Computer Science";
     hashed_password := "hash:123";
     location_pref := None; min_stipend_pref := None;
     max_stipend_pref := None; placement_conversion_pref := Some false;
     skills := Some "Python,React,SQL" |}.

Definition demo_mentor_row : User :=
  {| user_id := 3; name := "Faculty Mentor";
     email := "mentor@example.com"; role := facultyMentor;
     user_department := None; hashed_password := "hash:abc";
     location_pref := None; min_stipend_pref := None;
     max_stipend_pref := None; placement_conversion_pref := Some false;
     skills := None |}.

Definition demo_users : list User := [demo_student_row; demo_mentor_row].

End Auth.

(** ** The pages: the loops around the handlers, the read-only tabs and
       the routing of [main] *)

Module Pages.
Import Text Preferences Portal.

(** The loop of the browse tab: one "Apply" button per listed opportunity,
    keyed by [opp.uid]; the handler runs for the pressed one.  The list was
    read before the loop and is not read again. *)
Fixpoint browse_loop (e : Env) (u : User) (pressed : option string)
    (opps : list Opportunity) (s : Store) : Store * list Flash :=
  match opps with
  | [] => (s, [])
  | o :: rest =>
      if button pressed (opp_uid o) then
        let '(s1, m) := apply_to_opportunity e u o s in
        let '(s2, ms) := browse_loop e u pressed rest s1 in
        (s2, m :: ms)
      else browse_loop e u pressed rest s
  end.

Definition browse_tab (e : Env) (u : User) (pressed : option string)
    (s : Store) : Store * list Flash :=
  browse_loop e u pressed (opportunities s) s.

(** One line of the "My Applications" tab: the title of the opportunity,
    the status and the mentor status. *)
Definition ApplicationLine : Type :=
  string * ApplicationStatus * option string.

(** The loop of the tab: the lines written, and whether the loop ran to
    its end.  [session.get] yields [None] for a missing opportunity and
    [opp.title] then raises, which ends the run after the lines already
    written. *)
Fixpoint my_applications_loop (os : list Opportunity)
    (apps : list Application) : list ApplicationLine * bool :=
  match apps with
  | [] => ([], true)
  | a :: rest =>
      match get_opportunity os (opportunity_id a) with
      | None => ([], false)
      | Some o =>
          let '(ls, ok) := my_applications_loop os rest in
          ((title o, status a, mentor_status a) :: ls, ok)
      end
  end.

(** [select(Application).where(Application.student_id == user.id)] and the
    loop over the result. *)
Definition my_applications (u : User) (s : Store)
  : list ApplicationLine * bool :=
  my_applications_loop (opportunities s)
    (filter (λ a, student_id a = user_id u) (applications s)).

(** The "View Applicants" tab: a heading per opportunity the user posted,
    and under it a line per application with the student's name, e-mail
    address and the status. *)
Inductive ApplicantsLine : Type :=
| Heading (t : string)
| Applicant (n e : string) (st : ApplicationStatus).

Fixpoint applicant_lines (us : list User) (apps : list Application)
  : list ApplicantsLine * bool :=
  match apps with
  | [] => ([], true)
  | a :: rest =>
      match get_user us (student_id a) with
      | None => ([], false)
      | Some stu =>
          let '(ls, ok) := applicant_lines us rest in
          (Applicant (name stu) (email stu) (status a) :: ls, ok)
      end
  end.

Fixpoint applicants_loop (us : list User) (apps : list Application)
    (opps : list Opportunity) : list ApplicantsLine * bool :=
  match opps with
  | [] => ([], true)
  | o :: rest =>
      let '(ls, ok) :=
        applicant_lines us
          (filter (λ a, opportunity_id a = opp_id o) apps) in
      if ok then
        let '(ls', ok') := applicants_loop us apps rest in
        ((Heading (title o) :: ls ++ ls')%list, ok')
      else (Heading (title o) :: ls, false)
  end.

Definition view_applicants (u : User) (s : Store)
  : list ApplicantsLine * bool :=
  applicants_loop (users s) (applications s)
    (filter (λ o, posted_by o = Some (user_id u)) (opportunities s)).

(** [main]: the user id kept in the session, the row it denotes, and the
    page that is shown. *)
Inductive Page : Type :=
| LoginPage
| StudentDashboard (u : User)
| FacultyDashboard (u : User)
| PlacementEmployerDashboard (u : User).

(** [user_id = st.session_state.get("user_id")], then [session.get] under
    [if user_id:]. *)
Definition session_user (us : list User) (session : option Z)
  : option User :=
  if truthy_int session then get_user us (default 0 session) else None.

Definition main (us : list User) (session : option Z) : Page :=
  match session_user us session with
  | None => LoginPage
  | Some u =>
      match role u with
      | student => StudentDashboard u
      | facultyMentor => FacultyDashboard u
      | _ => PlacementEmployerDashboard u
      end
  end.

(** The session after the login button and after the logout button. *)
Definition session_after_login (r : Auth.LoginResult) (session : option Z)
  : option Z :=
  match r with
  | Auth.LoggedIn i => Some i
  | Auth.LoginError _ => session
  end.

Definition session_after_logout (session : option Z) : option Z := None.

(** Every application names a stored student and a stored opportunity. *)
Definition referenced (s : Store) (a : Application) : Prop :=
  is_Some (get_user (users s) (student_id a))
  ∧ is_Some (get_opportunity (opportunities s) (opportunity_id a)).

Definition integrity (s : Store) : Prop :=
  Forall (referenced s) (applications s).

(** The two status fields of a row agree. *)
Definition in_lockstep (a : Application) : Prop :=
  (status a = applied ∧ mentor_status a = Some "pending")
  ∨ (status a = approved ∧ mentor_status a = Some "approved")
  ∨ (status a = rejected ∧ mentor_status a = Some "rejected").

(** What no operation changes of a user, and of an application. *)
Definition identity (u : User)
  : Z * string * string * Role * option string * string :=
  (user_id u, name u, email u, role u, user_department u,
   hashed_password u).

Definition pair_of (a : Application) : Z * Z :=
  (student_id a, opportunity_id a).

Definition origin (a : Application) : Z * string * Z * Z * Z :=
  (app_id a, app_uid a, student_id a, opportunity_id a, applied_date a).



(** The line each tab writes for a row whose references resolve, and the
    lines of a whole tab when all of them do. *)
Definition application_line (os : list Opportunity) (a : Application)
  : option ApplicationLine :=
  (λ o, (title o, status a, mentor_status a))
    <$> get_opportunity os (opportunity_id a).

Definition applicant_line (us : list User) (a : Application)
  : option ApplicantsLine :=
  (λ stu, Applicant (name stu) (email stu) (status a))
    <$> get_user us (student_id a).

Definition applicants_section (us : list User) (apps : list Application)
    (o : Opportunity) : list ApplicantsLine :=
  Heading (title o)
  :: omap (applicant_line us) (filter (λ a, opportunity_id a = opp_id o) apps).

(** The page [main] routes a stored user to. *)
Definition dashboard_of (u : User) : Page :=
  match role u with
  | student => StudentDashboard u
  | facultyMentor => FacultyDashboard u
  | placementCell | employer => PlacementEmployerDashboard u
  end.

(** A student who has filled in nothing, and an opportunity whose required
    skills end in a comma. *)
Definition blank_student : User :=
  {| user_id := 6; name := "Meera Das"; email := "meera@example.com";
     role := student; user_department := None;
     hashed_password := "$2b$12$demo";
     location_pref := None; min_stipend_pref := None;
     max_stipend_pref := None; placement_conversion_pref := None;
     skills := None |}.

Definition trailing_comma_opp : Opportunity :=
  {| opp_id := 7; opp_uid := "opp-00000007";
     title := "Web Intern"; company := "Pixel Forge";
     description := "Front end"; required_skills := "React,";
     department := "CSE"; stipend := 9000; duration := "3 months";
     location := "Patna"; placement_conversion := false;
     application_deadline := None; posted_by := Some 2; created_at := 4 |}.

End Pages.

(** ** [create_db_and_seed] *)

Module Seed.
Import Portal.

Section Hash.
(** [pwd_context.hash(password)] *)
Variable pwd_hash : string → string.

Definition u1 : User :=
  {| user_id := 1; name := "Rajesh Kumar"; email := "student@example.com";
     role := student; user_department := Some "Computer Science";
     hashed_password := pwd_hash "123";
     location_pref := None; min_stipend_pref := None;
     max_stipend_pref := None; placement_conversion_pref := Some false;
     skills := Some "Python,React,SQL" |}.

Definition u2 : User :=
  {| user_id := 2; name := "Placement Cell";
     email := "placement@example.com"; role := placementCell;
     user_department := None; hashed_password := pwd_hash "123";
     location_pref := None; min_stipend_pref := None;
     max_stipend_pref := None; placement_conversion_pref := Some false;
     skills := None |}.

Definition u3 : User :=
  {| user_id := 3; name := "Faculty Mentor"; email := "mentor@example.com";
     role := facultyMentor;
     user_department := None; hashed_password := pwd_hash "123";
     location_pref := None; min_stipend_pref := None;
     max_stipend_pref := None; placement_conversion_pref := Some false;
     skills := None |}.

Definition u4 : User :=
  {| user_id := 4; name := "Employer Inc"; email := "employer@example.com";
     role := employer;
     user_department := None; hashed_password := pwd_hash "123";
     location_pref := None; min_stipend_pref := None;
     max_stipend_pref := None; placement_conversion_pref := Some false;
     skills := None |}.

(** The opportunity of the seed; 739616 is [date(2025, 12, 31)] as a day
    number. *)
Definition opp (e : Env) : Opportunity :=
  {| opp_id := next_id [];
     opp_uid := "opp-" +:+ hex8 e;
     title := "Frontend Developer Intern"; company := "Tech Solutions";
     description := "Work on React projects";
     required_skills := "React,JS,HTML,CSS"; department := "CSE";
     stipend := 15000; duration := "6 months"; location := "Ranchi";
     placement_conversion := true; application_deadline := Some 739616;
     posted_by := Some (user_id u2); created_at := utcnow e |}.

Definition seeded (e : Env) : Store :=
  {| users := [u1; u2; u3; u4];
     opportunities := [opp e];
     applications := [] |}.

(** The store after [create_db_and_seed]: [None] stands for a database
    file that does not exist yet. *)
Definition create_db_and_seed (e : Env) (db : option Store) : Store :=
  match db with
  | Some s => s
  | None => seeded e
  end.
End Hash.

(** The hash that goes with [Auth.demo_verify]. *)
Definition demo_hash (p : string) : string := "hash:" +:+ p.

End Seed.

(** * Properties *)

(** ** Facts about the string operations *)

Module TextFacts.
Import Text.

Lemma lower_ascii_comma (c : ascii) :
  Ascii.eqb (lower_ascii c) comma = Ascii.eqb c comma.
Proof.
  destruct c as [[] [] [] [] [] [] [] []]; reflexivity.
Qed.

Lemma split_comma_cons (s : string) :
  ∃ t ts, split_comma s = t :: ts.
Proof.
  induction s as [|c r IH]; simpl; [by eauto|].
  destruct (Ascii.eqb c comma); [by eauto|].
  destruct IH as (t & ts & ->). by eauto.
Qed.

(** Lowercasing leaves the commas where they are, so it commutes with
    splitting. *)
Lemma split_comma_lower (s : string) :
  split_comma (lower s) = map lower (split_comma s).
Proof.
  induction s as [|c r IH]; simpl; [done|].
  rewrite lower_ascii_comma.
  destruct (Ascii.eqb c comma); simpl; [by rewrite IH|].
  rewrite IH.
  destruct (split_comma_cons r) as (t & ts & ->). done.
Qed.

Lemma prefix_app (p s : string) :
  String.prefix p s = true ↔ ∃ post, s = p +:+ post.
Proof.
  revert s. induction p as [|c p IH]; intros [|d s]; simpl.
  - split; [by exists ""|done].
  - split; [by eauto|done].
  - split; [done|]. intros [post H]. discriminate.
  - destruct (Ascii.ascii_dec c d) as [->|Hne].
    + rewrite IH. split; intros [post H]; exists post.
      * by rewrite H.
      * change (String d s = String d (p +:+ post)) in H. congruence.
    + split; [done|]. intros [post H].
      change (String d s = String c (p +:+ post)) in H. congruence.
Qed.

(** [contains] is the substring test. *)
Lemma contains_spec (needle hay : string) :
  contains needle hay = true ↔ ∃ pre post, hay = pre +:+ needle +:+ post.
Proof.
  induction hay as [|c r IH]; cbn [contains].
  - rewrite orb_false_r, prefix_app. split.
    + intros [post H]. by exists "", post.
    + intros (pre & post & H). exists post.
      destruct pre; [done|discriminate].
  - rewrite orb_true_iff, prefix_app, IH. split.
    + intros [[post H]|(pre & post & H)].
      * by exists "", post.
      * exists (String c pre), post. by rewrite H.
    + intros (pre & post & H). destruct pre as [|d pre].
      * left. by exists post.
      * right. exists pre, post.
        change (String c r = String d (pre +:+ needle +:+ post)) in H.
        congruence.
Qed.

Example split_comma_skills :
  split_comma (lower "React,JS,HTML,CSS") = ["react"; "js"; "html"; "css"].
Proof. reflexivity. Qed.

Example split_comma_empty_tokens :
  split_comma "a,,b," = ["a"; ""; "b"; ""] ∧ split_comma "" = [""].
Proof. split; reflexivity. Qed.

Example contains_ranchi :
  contains (lower "Ranchi") (lower "Ranchi, Jharkhand") = true
  ∧ contains (lower "Ranchi") (lower "Delhi") = false.
Proof. split; reflexivity. Qed.

End TextFacts.

(** ** The recommendation engine *)

Module RecommendFacts.
Import Text TextFacts Recommend Preferences.

(** *** What the four guards test *)

Lemma truthy_str_spec (o : option string) :
  truthy_str o = true ↔ ∃ s, o = Some s ∧ s ≠ "".
Proof.
  destruct o as [s|]; simpl.
  - rewrite negb_true_iff. destruct (String.eqb_spec s "") as [->|Hne].
    + split; [done|]. intros (s & [= <-] & H). done.
    + split; [by eauto|done].
  - split; [done|]. intros (s & H & _). done.
Qed.

Lemma truthy_int_spec (o : option Z) :
  truthy_int o = true ↔ ∃ n, o = Some n ∧ n ≠ 0.
Proof.
  destruct o as [n|]; simpl.
  - rewrite negb_true_iff, Z.eqb_neq. split; [by eauto|].
    intros (m & [= <-] & H). done.
  - split; [done|]. intros (n & H & _). done.
Qed.

Lemma location_match_spec (u : User) (o : Opportunity) :
  location_match u o = true ↔
  ∃ p, location_pref u = Some p ∧ p ≠ "" ∧
       ∃ pre post, lower (location o) = pre +:+ lower p +:+ post.
Proof.
  unfold location_match.
  rewrite andb_true_iff, truthy_str_spec, contains_spec. split.
  - intros ((p & Hp & Hne) & H). rewrite Hp in H. by eauto.
  - intros (p & Hp & Hne & H). rewrite Hp. by eauto.
Qed.

Lemma min_stipend_ok_spec (u : User) (o : Opportunity) :
  min_stipend_ok u o = true ↔
  ∃ m, min_stipend_pref u = Some m ∧ m ≠ 0 ∧ m ≤ stipend o.
Proof.
  unfold min_stipend_ok.
  rewrite andb_true_iff, truthy_int_spec, Z.leb_le. split.
  - intros ((m & Hm & Hne) & H). rewrite Hm in H. by eauto.
  - intros (m & Hm & Hne & H). rewrite Hm. by eauto.
Qed.

Lemma max_stipend_ok_spec (u : User) (o : Opportunity) :
  max_stipend_ok u o = true ↔
  ∃ m, max_stipend_pref u = Some m ∧ m ≠ 0 ∧ stipend o ≤ m.
Proof.
  unfold max_stipend_ok.
  rewrite andb_true_iff, truthy_int_spec, Z.leb_le. split.
  - intros ((m & Hm & Hne) & H). rewrite Hm in H. by eauto.
  - intros (m & Hm & Hne & H). rewrite Hm. by eauto.
Qed.

Lemma conversion_match_spec (u : User) (o : Opportunity) :
  conversion_match u o = true ↔
  placement_conversion_pref u = Some true ∧ placement_conversion o = true.
Proof.
  unfold conversion_match. rewrite andb_true_iff.
  destruct (placement_conversion_pref u) as [[]|]; simpl;
    (split; [intros [? ?]|intros [[=] ?]]); try done.
Qed.

Lemma score_sum (u : User) (o : Opportunity) :
  score u o =
    Z.b2z (location_match u o) + Z.b2z (min_stipend_ok u o)
    + Z.b2z (max_stipend_ok u o) + Z.b2z (conversion_match u o)
    + skill_matches u o.
Proof.
  unfold score.
  destruct (location_match u o), (min_stipend_ok u o),
    (max_stipend_ok u o), (conversion_match u o); simpl; lia.
Qed.

Lemma skill_matches_nonneg (u : User) (o : Opportunity) :
  0 ≤ skill_matches u o.
Proof. unfold skill_matches. lia. Qed.

Lemma score_nonneg (u : User) (o : Opportunity) : 0 ≤ score u o.
Proof.
  rewrite score_sum. pose proof (skill_matches_nonneg u o).
  destruct (location_match u o), (min_stipend_ok u o),
    (max_stipend_ok u o), (conversion_match u o); simpl; lia.
Qed.

(** C1.  The total score of an opportunity is the sum of the four
    predicate points (location, minimum stipend, maximum stipend,
    placement conversion), each 1 when its guard holds and 0 otherwise,
    plus the skill-overlap count.  The guards are: a non-empty preferred
    location whose lowercase form occurs in the lowercase location; a
    non-zero minimum not above the stipend; a non-zero maximum not below
    the stipend; a set conversion preference with an opportunity that
    offers conversion.  In the worked scenario the five summands are 1, 1,
    0, 1 and 1 and the total is 4. *)
Theorem score_is_points_plus_overlap :
  (∀ (u : User) (o : Opportunity),
      score u o =
        Z.b2z (location_match u o) + Z.b2z (min_stipend_ok u o)
        + Z.b2z (max_stipend_ok u o) + Z.b2z (conversion_match u o)
        + skill_matches u o
      ∧ (location_match u o = true ↔
         ∃ p, location_pref u = Some p ∧ p ≠ "" ∧
              ∃ pre post, lower (location o) = pre +:+ lower p +:+ post)
      ∧ (min_stipend_ok u o = true ↔
         ∃ m, min_stipend_pref u = Some m ∧ m ≠ 0 ∧ m ≤ stipend o)
      ∧ (max_stipend_ok u o = true ↔
         ∃ m, max_stipend_pref u = Some m ∧ m ≠ 0 ∧ stipend o ≤ m)
      ∧ (conversion_match u o = true ↔
         placement_conversion_pref u = Some true
         ∧ placement_conversion o = true))
  ∧ Z.b2z (location_match scenario_student scenario_opp) = 1
  ∧ Z.b2z (min_stipend_ok scenario_student scenario_opp) = 1
  ∧ Z.b2z (max_stipend_ok scenario_student scenario_opp) = 0
  ∧ Z.b2z (conversion_match scenario_student scenario_opp) = 1
  ∧ skill_matches scenario_student scenario_opp = 1
  ∧ score scenario_student scenario_opp = 4.
Proof.
  split.
  - intros u o. split; [apply score_sum|].
    split; [apply location_match_spec|].
    split; [apply min_stipend_ok_spec|].
    split; [apply max_stipend_ok_spec|apply conversion_match_spec].
  - repeat apply conj; vm_compute; reflexivity.
Qed.

(** *** The token sets *)

Lemma or_str_empty (o : option string) : or_str o "" = default "" o.
Proof.
  unfold or_str. destruct o as [s|]; simpl; [|done].
  by destruct (String.eqb_spec s "") as [->|].
Qed.

Lemma skill_set_token_set (s : string) : skill_set s = token_set s.
Proof. unfold skill_set, token_set. by rewrite split_comma_lower. Qed.

Lemma elem_of_token_set (t s : string) :
  t ∈ token_set s ↔ ∃ tok, tok ∈ split_comma s ∧ t = lower tok.
Proof.
  unfold token_set. rewrite elem_of_list_to_set, list_elem_of_In, in_map_iff.
  split; intros (tok & H1 & H2); exists tok.
  - by rewrite list_elem_of_In.
  - by rewrite <- list_elem_of_In.
Qed.


(** C6.  For a fixed opportunity the skill-match count does not decrease
    when the student's skill set grows. *)
Theorem skill_matches_monotone (u1 u2 : User) (o : Opportunity) :
  student_skills u1 ⊆ student_skills u2 →
  skill_matches u1 o ≤ skill_matches u2 o.
Proof.
  intros Hsub. unfold skill_matches.
  apply inj_le, subseteq_size.
  intros t. rewrite !elem_of_intersection. intros [Ht Ho].
  split; [by apply Hsub|done].
Qed.

(** A student who adds a skill: the sets grow, the count cannot drop. *)
Lemma skill_matches_monotone_witness :
  student_skills novice_student ⊆ student_skills scenario_student
  ∧ skill_matches novice_student scenario_opp
    ≤ skill_matches scenario_student scenario_opp.
Proof.
  assert (H : student_skills novice_student
              ⊆ student_skills scenario_student).
  { apply (bool_decide_unpack _). vm_compute. exact I. }
  split; [exact H|].
  exact (skill_matches_monotone novice_student scenario_student
           scenario_opp H).
Defined.

(** *** Filtering and ranking *)

Lemma collect_filter (u : User) (opps : list Opportunity) :
  collect u opps = map (entry u) (filter (λ o, 0 < score u o) opps).
Proof.
  induction opps as [|o rest IH]; simpl; [done|].
  rewrite filter_cons. destruct (Z.ltb_spec 0 (score u o)).
  - rewrite decide_True by done. simpl. by rewrite IH.
  - rewrite decide_False by lia. done.
Qed.

Lemma elem_of_collect (u : User) (opps : list Opportunity) (m : Match) :
  m ∈ collect u opps ↔ ∃ o, o ∈ opps ∧ 0 < score u o ∧ m = entry u o.
Proof.
  rewrite collect_filter, list_elem_of_In, in_map_iff. split.
  - intros (o & <- & Ho). apply list_elem_of_In, list_elem_of_filter in Ho.
    exists o. destruct Ho as [Hs Ho]. done.
  - intros (o & Ho & Hs & ->). exists o. split; [done|].
    apply list_elem_of_In, list_elem_of_filter. done.
Qed.

Lemma insert_desc_perm (m : Match) (l : list Match) :
  insert_desc m l ≡ₚ m :: l.
Proof.
  induction l as [|y l IH]; simpl; [done|].
  destruct (match_score m <? match_score y); [|done].
  rewrite IH. apply perm_swap.
Qed.

Lemma sort_desc_perm (l : list Match) : sort_desc l ≡ₚ l.
Proof.
  induction l as [|m l IH]; simpl; [done|].
  by rewrite insert_desc_perm, IH.
Qed.

Lemma insert_desc_sorted (m : Match) (l : list Match) :
  StronglySorted desc l → StronglySorted desc (insert_desc m l).
Proof.
  induction 1 as [|y l Hs IH Hall]; simpl.
  - constructor; [constructor|constructor].
  - destruct (Z.ltb_spec (match_score m) (match_score y)).
    + constructor; [done|].
      rewrite insert_desc_perm. constructor; [unfold desc; lia|done].
    + constructor; [by constructor|].
      constructor; [unfold desc; lia|].
      eapply Forall_impl; [exact Hall|]. unfold desc. intros z Hz. lia.
Qed.

Lemma sort_desc_sorted (l : list Match) : StronglySorted desc (sort_desc l).
Proof.
  induction l as [|m l IH]; simpl; [constructor|].
  by apply insert_desc_sorted.
Qed.

(** Insertion never moves an element past one of the same score. *)
Lemma filter_insert_desc (v : Z) (m : Match) (l : list Match) :
  filter (λ x, match_score x = v) (insert_desc m l)
  = filter (λ x, match_score x = v) (m :: l).
Proof.
  induction l as [|y l IH]; simpl; [done|].
  destruct (Z.ltb_spec (match_score m) (match_score y)); [|done].
  rewrite (filter_cons _ y), IH, !filter_cons.
  repeat case_decide; (done || lia).
Qed.

Lemma filter_sort_desc (v : Z) (l : list Match) :
  filter (λ x, match_score x = v) (sort_desc l)
  = filter (λ x, match_score x = v) l.
Proof.
  induction l as [|m l IH]; simpl; [done|].
  by rewrite filter_insert_desc, !filter_cons, IH.
Qed.

Lemma collect_by_score (u : User) (opps : list Opportunity) (v : Z) :
  map match_opp (filter (λ m, match_score m = v) (collect u opps))
  = filter (λ o, 0 < score u o ∧ score u o = v) opps.
Proof.
  induction opps as [|o rest IH]; simpl; [done|].
  rewrite (filter_cons _ o).
  destruct (Z.ltb_spec 0 (score u o)).
  - rewrite filter_cons. unfold match_score at 1. simpl.
    repeat case_decide; simpl; rewrite ?IH; try done; exfalso; tauto.
  - case_decide; [lia|done].
Qed.

Lemma elem_of_ranked (u : User) (opps : list Opportunity) (m : Match) :
  m ∈ ranked u opps ↔ ∃ o, o ∈ opps ∧ 0 < score u o ∧ m = entry u o.
Proof. unfold ranked. by rewrite sort_desc_perm, elem_of_collect. Qed.

Lemma recommended_listing (u : User) (opps : list Opportunity)
    (ms : list Match) :
  recommended u opps = Listing ms → ms = ranked u opps.
Proof.
  unfold recommended. destruct (collect u opps); [done|]. by intros [= <-].
Qed.

(** C4.  An opportunity whose total score is 0 for the student is absent
    from the ranked output: no rendered entry carries it, whatever score
    and skill count the entry shows. *)
Theorem zero_score_not_ranked (u : User) (opps : list Opportunity)
    (o : Opportunity) :
  score u o = 0 →
  ∀ s k : Z, (o, s, k) ∉ ranked u opps.
Proof.
  intros Hz s k Hin.
  apply elem_of_ranked in Hin as (o' & _ & Hpos & Heq).
  unfold entry in Heq. injection Heq as -> _ _. lia.
Qed.

Lemma zero_score_not_ranked_witness :
  score scenario_student unrelated_opp = 0
  ∧ ∀ s k : Z,
      (unrelated_opp, s, k)
        ∉ ranked scenario_student [scenario_opp; unrelated_opp].
Proof.
  assert (H : score scenario_student unrelated_opp = 0)
    by (vm_compute; reflexivity).
  split; [exact H|].
  exact (zero_score_not_ranked scenario_student
           [scenario_opp; unrelated_opp] unrelated_opp H).
Defined.

(** The one-point opportunities keep their listing order behind the
    four-point one; the zero-point one is gone. *)
Example ranked_listing :
  map summary
    (ranked scenario_student
       [ranchi_opp; unrelated_opp; remote_sql_opp; scenario_opp])
  = [(1, 4, 1); (3, 1, 0); (4, 1, 1)].
Proof. vm_compute. reflexivity. Qed.

(** C5.  The ranked output is in descending order of total score, and
    for every score value the entries of that score appear in the output
    in the order in which their opportunities appear in the input
    listing. *)
Theorem ranked_sorted_and_stable (u : User) (opps : list Opportunity) :
  StronglySorted desc (ranked u opps)
  ∧ ranked u opps ≡ₚ collect u opps
  ∧ collect u opps = map (entry u) (filter (λ o, 0 < score u o) opps)
  ∧ (∀ v : Z,
      filter (λ m, match_score m = v) (ranked u opps)
      = filter (λ m, match_score m = v) (collect u opps))
  ∧ (∀ v : Z,
      map match_opp (filter (λ m, match_score m = v) (ranked u opps))
      = filter (λ o, 0 < score u o ∧ score u o = v) opps).
Proof.
  unfold ranked. split; [apply sort_desc_sorted|].
  split; [apply sort_desc_perm|].
  split; [apply collect_filter|].
  split; intros v; rewrite filter_sort_desc; [done|].
  apply collect_by_score.
Qed.

(** C10.  A stored minimum-stipend preference of 0 earns no point for any
    opportunity and scores exactly as an unset preference does, because
    the guard tests the truthiness of the stored value; likewise for a
    stored maximum of 0.  The value 0 is what the preferences form saves
    when the student leaves the field of an unset preference alone. *)
Theorem zero_stipend_pref_is_unset (u : User) (o : Opportunity) :
  (min_stipend_pref u = Some 0 →
     Z.b2z (min_stipend_ok u o) = 0
     ∧ min_stipend_ok u o = min_stipend_ok (with_min_stipend_pref None u) o
     ∧ score u o = score (with_min_stipend_pref None u) o)
  ∧ (max_stipend_pref u = Some 0 →
     Z.b2z (max_stipend_ok u o) = 0
     ∧ max_stipend_ok u o = max_stipend_ok (with_max_stipend_pref None u) o
     ∧ score u o = score (with_max_stipend_pref None u) o)
  ∧ (min_stipend_pref u = None →
     min_stipend_pref (assign_prefs (form_defaults u) u) = Some 0)
  ∧ (max_stipend_pref u = None →
     max_stipend_pref (assign_prefs (form_defaults u) u) = Some 0).
Proof.
  repeat apply conj.
  - intros H. unfold score, min_stipend_ok, max_stipend_ok, location_match,
      conversion_match, skill_matches, student_skills. simpl. by rewrite H.
  - intros H. unfold score, min_stipend_ok, max_stipend_ok, location_match,
      conversion_match, skill_matches, student_skills. simpl. by rewrite H.
  - intros H. simpl. unfold or_int. by rewrite H.
  - intros H. simpl. unfold or_int. by rewrite H.
Qed.

Lemma zero_stipend_pref_is_unset_witness :
  min_stipend_pref saved_novice = Some 0
  ∧ max_stipend_pref saved_novice = Some 0
  ∧ Z.b2z (min_stipend_ok saved_novice scenario_opp) = 0
  ∧ Z.b2z (max_stipend_ok saved_novice scenario_opp) = 0
  ∧ score saved_novice scenario_opp = score novice_student scenario_opp.
Proof.
  destruct (zero_stipend_pref_is_unset saved_novice scenario_opp)
    as (Hmin & Hmax & _ & _).
  assert (H1 : min_stipend_pref saved_novice = Some 0) by reflexivity.
  assert (H2 : max_stipend_pref saved_novice = Some 0) by reflexivity.
  destruct (Hmin H1) as (P1 & _ & _).
  destruct (Hmax H2) as (P2 & _ & _).
  repeat apply conj; [exact H1|exact H2|exact P1|exact P2|].
  vm_compute. reflexivity.
Defined.

End RecommendFacts.

(** ** Applying, deciding and posting *)

Module PortalFacts.
Import Text Preferences Portal.

(** *** Applying *)

Lemma existing_application_found (apps : list Application) (sid oid : Z)
    (a : Application) :
  a ∈ apps → student_id a = sid → opportunity_id a = oid →
  is_Some (existing_application apps sid oid).
Proof.
  intros Hin Hs Ho. unfold existing_application.
  assert (Hf : a ∈ filter (λ a, student_id a = sid ∧ opportunity_id a = oid)
                   apps) by (apply list_elem_of_filter; done).
  destruct (filter _ apps) as [|b l]; [|by eexists].
  by apply not_elem_of_nil in Hf.
Qed.

Lemma existing_application_matches (apps : list Application) (sid oid : Z)
    (a : Application) :
  existing_application apps sid oid = Some a →
  a ∈ apps ∧ student_id a = sid ∧ opportunity_id a = oid.
Proof.
  unfold existing_application. intros H.
  assert (Hf : a ∈ filter (λ a, student_id a = sid ∧ opportunity_id a = oid)
                   apps).
  { destruct (filter _ apps) as [|b l]; [done|].
    injection H as ->. apply list_elem_of_here. }
  apply list_elem_of_filter in Hf. tauto.
Qed.

Lemma apply_when_existing (e : Env) (u : User) (o : Opportunity)
    (s : Store) :
  is_Some (existing_application (applications s) (user_id u) (opp_id o)) →
  apply_to_opportunity e u o s = (s, Warning "Already applied!").
Proof. intros [a Ha]. unfold apply_to_opportunity. by rewrite Ha. Qed.

Lemma applied_after_apply (e : Env) (u : User) (o : Opportunity)
    (s : Store) :
  is_Some (existing_application
             (applications (fst (apply_to_opportunity e u o s)))
             (user_id u) (opp_id o)).
Proof.
  unfold apply_to_opportunity.
  destruct (existing_application (applications s) _ _) as [a|] eqn:E.
  - simpl. rewrite E. by eexists.
  - simpl.
    apply (existing_application_found _ _ _
             (new_application e (applications s) (user_id u) (opp_id o)));
      [|done|done].
    apply elem_of_app. right. apply list_elem_of_here.
Qed.

(** C3.  When an application of the student for the opportunity is
    already stored, applying again shows the "Already applied!" warning
    and returns the store as it was, so no second record exists; a
    second attempt straight after any attempt is such a case. *)
Theorem duplicate_application_rejected (e : Env) (u : User)
    (o : Opportunity) (s : Store) :
  (∀ a : Application,
      a ∈ applications s →
      student_id a = user_id u → opportunity_id a = opp_id o →
      apply_to_opportunity e u o s = (s, Warning "Already applied!"))
  ∧ (∀ e' : Env,
      apply_to_opportunity e' u o (fst (apply_to_opportunity e u o s))
      = (fst (apply_to_opportunity e u o s), Warning "Already applied!")).
Proof.
  split.
  - intros a Hin Hs Ho. apply apply_when_existing.
    by apply (existing_application_found _ _ _ a).
  - intros e'. apply apply_when_existing, applied_after_apply.
Qed.

Lemma duplicate_application_rejected_witness :
  first_application ∈ applications applied_store
  ∧ apply_to_opportunity env2 Recommend.scenario_student
      Recommend.scenario_opp applied_store
    = (applied_store, Warning "Already applied!").
Proof.
  assert (H : first_application ∈ applications applied_store)
    by apply list_elem_of_here.
  split; [exact H|].
  exact (proj1 (duplicate_application_rejected env2
                  Recommend.scenario_student Recommend.scenario_opp
                  applied_store)
           first_application H eq_refl eq_refl).
Defined.

Example first_apply_stores_row :
  apply_to_opportunity env1 Recommend.scenario_student
    Recommend.scenario_opp demo_store
  = ({| users := users demo_store;
        opportunities := opportunities demo_store;
        applications := [first_application] |},
     Success "Applied successfully!")
  ∧ mentor_status first_application = Some "pending"
  ∧ status first_application = applied
  ∧ app_uid first_application = "app-01234567".
Proof. repeat apply conj; reflexivity. Qed.

(** *** Deciding *)

Lemma decided_not_pending (a : Application) :
  decided a → is_pending a = false.
Proof. unfold decided, is_pending. by intros [-> | ->]. Qed.

Lemma faculty_loop_keeps (us : list User) (os : list Opportunity)
    (pressed : option string) (apps : list Application) (i : nat)
    (a : Application) :
  apps !! i = Some a → is_pending a = false →
  fst (faculty_loop us os pressed apps) !! i = Some a.
Proof.
  revert i. induction apps as [|b rest IH]; intros i Hi Hp; [done|].
  simpl. destruct i as [|i]; simpl in Hi.
  - injection Hi as ->. rewrite Hp.
    by destruct (faculty_loop us os pressed rest).
  - specialize (IH i Hi Hp).
    destruct (faculty_loop us os pressed rest) as [rest' ok].
    destruct (is_pending b); [|done].
    destruct (get_user us (student_id b)); [|done].
    destruct (get_opportunity os (opportunity_id b)); done.
Qed.

Lemma decide_row_cases (pressed : option string) (a : Application) :
  decide_row pressed a = a
  ∨ decide_row pressed a = set_decision "approved" approved "Approved" a
  ∨ decide_row pressed a = set_decision "rejected" rejected "Rejected" a.
Proof.
  unfold decide_row.
  destruct (button pressed ("appr-" +:+ app_uid a)),
    (button pressed ("rej-" +:+ app_uid a)); auto.
Qed.

(** A row the mentor's page changes was pending, and it becomes approved
    or rejected in both status fields at once. *)
Lemma faculty_loop_changes (us : list User) (os : list Opportunity)
    (pressed : option string) (apps : list Application) (i : nat)
    (a a' : Application) :
  apps !! i = Some a →
  fst (faculty_loop us os pressed apps) !! i = Some a' →
  a' = a
  ∨ (is_pending a = true
     ∧ (a' = set_decision "approved" approved "Approved" a
        ∨ a' = set_decision "rejected" rejected "Rejected" a)).
Proof.
  revert i. induction apps as [|b rest IH]; intros i Hi Hi'; [done|].
  simpl in Hi'.
  destruct (is_pending b) eqn:Hp.
  - destruct (get_user us (student_id b));
      [|left; simpl in Hi'; congruence].
    destruct (get_opportunity os (opportunity_id b));
      [|left; simpl in Hi'; congruence].
    destruct (faculty_loop us os pressed rest) as [rest' ok] eqn:E.
    destruct i as [|i]; simpl in *.
    + injection Hi as <-. injection Hi' as <-.
      destruct (decide_row_cases pressed b) as [->|[->| ->]]; auto.
    + by apply (IH i).
  - destruct (faculty_loop us os pressed rest) as [rest' ok] eqn:E.
    destruct i as [|i]; simpl in *.
    + left. congruence.
    + by apply (IH i).
Qed.

Lemma step_keeps (s : Store) (act : Action) (i : nat) (a : Application) :
  applications s !! i = Some a → is_pending a = false →
  applications (step s act) !! i = Some a.
Proof.
  intros Hi Hp. destruct act as [e u o|u f|pressed|e u f]; simpl.
  - unfold apply_to_opportunity.
    destruct (existing_application _ _ _); simpl; [done|].
    by apply lookup_app_l_Some.
  - unfold save_preferences. by destruct (get_user _ _).
  - unfold faculty_dashboard.
    pose proof (faculty_loop_keeps (users s) (opportunities s) pressed
                  (applications s) i a Hi Hp) as H.
    by destruct (faculty_loop _ _ _ _).
  - unfold post_opportunity. by destruct (negb _).
Qed.

Lemma run_keeps (acts : list Action) (s : Store) (i : nat)
    (a : Application) :
  applications s !! i = Some a → is_pending a = false →
  applications (run s acts) !! i = Some a.
Proof.
  revert s. induction acts as [|act acts IH]; intros s Hi Hp; [done|].
  simpl. apply IH; [|done]. by apply step_keeps.
Qed.

(** C7.  A decided application (mentor status approved or rejected) is
    left exactly as it is, in every field, by every sequence of
    operations; and the mentor's decision changes only rows whose mentor
    status is pending, setting both status fields together. *)
Theorem decided_application_is_final (s : Store) (i : nat)
    (a : Application) :
  applications s !! i = Some a →
  (decided a →
     ∀ acts : list Action, applications (run s acts) !! i = Some a)
  ∧ (∀ (pressed : option string) (a' : Application),
       applications (fst (faculty_dashboard pressed s)) !! i = Some a' →
       a' = a
       ∨ (mentor_status a = Some "pending"
          ∧ ((mentor_status a' = Some "approved" ∧ status a' = approved)
             ∨ (mentor_status a' = Some "rejected"
                ∧ status a' = rejected)))).
Proof.
  intros Hi. split.
  - intros Hd acts. apply run_keeps; [done|]. by apply decided_not_pending.
  - intros pressed a' Hi'. unfold faculty_dashboard in Hi'.
    pose proof (faculty_loop_changes (users s) (opportunities s) pressed
                  (applications s) i a a' Hi) as H.
    destruct (faculty_loop _ _ _ _) as [apps ok]. simpl in *.
    destruct (H Hi') as [->|[Hp [-> | ->]]]; [by left|right..].
    + split; [|by left]. unfold is_pending in Hp.
      destruct (mentor_status a) as [m|]; [|done].
      by apply String.eqb_eq in Hp as ->.
    + split; [|by right]. unfold is_pending in Hp.
      destruct (mentor_status a) as [m|]; [|done].
      by apply String.eqb_eq in Hp as ->.
Qed.

Lemma decided_application_is_final_witness :
  applications approved_store !! 0%nat = Some approved_application
  ∧ decided approved_application
  ∧ applications
      (run approved_store
         [FacultyRun (Some "rej-app-01234567");
          PressApply env2 Recommend.scenario_student Recommend.scenario_opp;
          FacultyRun (Some "appr-app-01234567")]) !! 0%nat
    = Some approved_application.
Proof.
  assert (H : applications approved_store !! 0%nat
              = Some approved_application) by reflexivity.
  assert (D : decided approved_application) by (left; reflexivity).
  split; [exact H|]. split; [exact D|].
  exact (proj1 (decided_application_is_final approved_store 0
                  approved_application H) D _).
Defined.

(** The approve button decides the pending row; afterwards the page has
    no button for it, so a later press finds nothing to change. *)
Example approve_then_press_reject :
  applications approved_store = [approved_application]
  ∧ faculty_dashboard (Some "rej-app-01234567") approved_store
    = (approved_store, true).
Proof. split; reflexivity. Qed.

(** *** Posting *)

Lemma le_foldr_max (ids : list Z) (x : Z) :
  x ∈ ids → x ≤ foldr Z.max 0 ids.
Proof.
  induction ids as [|y ids IH]; [by intros ?%not_elem_of_nil|].
  intros [->|Hin]%elem_of_cons; simpl; [lia|].
  specialize (IH Hin). lia.
Qed.

Lemma next_id_fresh (ids : list Z) : next_id ids ∉ ids.
Proof.
  intros Hin. apply le_foldr_max in Hin. unfold next_id in Hin. lia.
Qed.

Lemma filled_spec (s : string) : filled s = true ↔ s ≠ "".
Proof.
  unfold filled. rewrite negb_true_iff.
  destruct (String.eqb_spec s ""); split; congruence.
Qed.

Lemma mandatory_filled_spec (f : PostForm) :
  mandatory_filled f = true ↔
  f_title f ≠ "" ∧ f_company f ≠ "" ∧ f_desc f ≠ ""
  ∧ f_skills f ≠ "" ∧ f_dept f ≠ "" ∧ f_loc f ≠ "".
Proof.
  unfold mandatory_filled. rewrite !andb_true_iff, !filled_spec. tauto.
Qed.

(** C8.  Posting with any of title, company, description, required
    skills, department or location empty shows the validation warning and
    leaves the store as it was; with all six filled it appends exactly
    one opportunity, attributed to the poster, carrying the generated uid
    and the current time, under a primary key no stored opportunity
    has. *)
Theorem post_opportunity_validates (e : Env) (u : User) (f : PostForm)
    (s : Store) :
  (f_title f = "" ∨ f_company f = "" ∨ f_desc f = ""
   ∨ f_skills f = "" ∨ f_dept f = "" ∨ f_loc f = "" →
     post_opportunity e u f s
     = (s, Warning "Please fill all mandatory fields!"))
  ∧ (f_title f ≠ "" ∧ f_company f ≠ "" ∧ f_desc f ≠ ""
     ∧ f_skills f ≠ "" ∧ f_dept f ≠ "" ∧ f_loc f ≠ "" →
     ∃ o : Opportunity,
       post_opportunity e u f s
       = ({| users := users s;
             opportunities := opportunities s ++ [o];
             applications := applications s |},
          Success "Posted successfully!")
       ∧ posted_by o = Some (user_id u)
       ∧ (opp_id o ∉ map opp_id (opportunities s))
       ∧ opp_uid o = ("opp-" +:+ String.substring 0 8 (uuid_hex e))
       ∧ created_at o = utcnow e
       ∧ title o = f_title f ∧ company o = f_company f
       ∧ description o = f_desc f ∧ required_skills o = f_skills f
       ∧ department o = f_dept f ∧ location o = f_loc f
       ∧ stipend o = f_stipend f ∧ duration o = f_dur f
       ∧ placement_conversion o = f_conv f).
Proof.
  split.
  - intros Hempty. unfold post_opportunity.
    destruct (mandatory_filled f) eqn:E; [|done].
    apply mandatory_filled_spec in E. tauto.
  - intros Hfilled. apply mandatory_filled_spec in Hfilled.
    exists (new_opportunity e (opportunities s) u f).
    unfold post_opportunity. rewrite Hfilled. simpl.
    repeat apply conj; try reflexivity. apply next_id_fresh.
Qed.

Lemma post_opportunity_validates_witness :
  post_opportunity env1 placement_user form_without_company demo_store
  = (demo_store, Warning "Please fill all mandatory fields!")
  ∧ ∃ o : Opportunity,
      opportunities
        (fst (post_opportunity env1 placement_user complete_form
                demo_store))
      = (opportunities demo_store ++ [o])%list
      ∧ posted_by o = Some 2 ∧ opp_id o = 2.
Proof.
  split.
  - apply (proj1 (post_opportunity_validates env1 placement_user
                    form_without_company demo_store)).
    right. left. reflexivity.
  - destruct (proj2 (post_opportunity_validates env1 placement_user
                       complete_form demo_store))
      as (o & Hpost & Hby & _).
    { repeat apply conj; discriminate. }
    exists o. rewrite Hpost. split; [reflexivity|]. split; [exact Hby|].
    simpl in Hpost. injection Hpost as <-. reflexivity.
Defined.

End PortalFacts.

(** ** Credential verification *)

Module AuthFacts.
Import Auth.


Lemma first_by_email_Some (us : list User) (e : string) (u : User) :
  first_by_email us e = Some u ↔
  ∃ l1 l2, us = (l1 ++ u :: l2)%list ∧ email u = e
           ∧ ∀ x, x ∈ l1 → email x ≠ e.
Proof.
  unfold first_by_email. induction us as [|y us IH]; simpl.
  - split; [done|]. intros (l1 & l2 & H & _). by destruct l1.
  - rewrite filter_cons. case_decide as Hy; simpl.
    + split.
      * intros [= ->]. exists [], us. split; [done|]. split; [done|].
        intros x Hx. by apply not_elem_of_nil in Hx.
      * intros (l1 & l2 & H & He & Hl1). destruct l1 as [|z l1].
        -- simpl in H. congruence.
        -- simpl in H. injection H as -> ->.
           destruct (Hl1 z); [apply list_elem_of_here|done].
    + rewrite IH. split.
      * intros (l1 & l2 & -> & He & Hl1). exists (y :: l1), l2.
        split; [done|]. split; [done|].
        intros x [->|Hx]%elem_of_cons; [done|by apply Hl1].
      * intros (l1 & l2 & H & He & Hl1). destruct l1 as [|z l1].
        -- simpl in H. congruence.
        -- simpl in H. injection H as -> ->. exists l1, l2.
           split; [done|]. split; [done|].
           intros x Hx. apply Hl1. by apply list_elem_of_further.
Qed.

Lemma first_by_email_elem (us : list User) (e : string) (u : User) :
  first_by_email us e = Some u → u ∈ us ∧ email u = e.
Proof.
  intros (l1 & l2 & -> & He & _)%first_by_email_Some. split; [|done].
  apply elem_of_app. right. apply list_elem_of_here.
Qed.


Section Verify.
Variable pwd_verify : string → string → bool.

Lemma verify_user_Some (us : list User) (e p : string) (u : User) :
  verify_user pwd_verify us e p = Some u ↔
  first_by_email us e = Some u
  ∧ pwd_verify p (hashed_password u) = true.
Proof.
  unfold verify_user.
  destruct (first_by_email us e) as [v|]; [|by split; [|intros []]].
  destruct (pwd_verify p (hashed_password v)) eqn:E.
  - split; [by intros [= <-]|by intros [[= <-] _]].
  - split; [done|]. intros [[= <-] H]. congruence.
Qed.

End Verify.

Example login_with_right_password :
  login_ui demo_verify demo_users "student@example.com" "123" = LoggedIn 1.
Proof. reflexivity. Qed.


End AuthFacts.

(** ** Further properties of the recommendation engine *)

Module RecommendMore.
Import Text TextFacts Recommend Preferences Pages RecommendFacts.

Lemma size_list_to_set_le (l : list string) :
  (size (list_to_set l : gset string) ≤ length l)%nat.
Proof.
  induction l as [|x l IH].
  - by rewrite list_to_set_nil, size_empty.
  - rewrite list_to_set_cons, size_union_alt, size_singleton. simpl.
    assert (size (list_to_set l ∖ {[x]} : gset string)
            ≤ size (list_to_set l : gset string))%nat; [|lia].
    apply subseteq_size. intros t. rewrite elem_of_difference. tauto.
Qed.

Lemma skill_set_size_le (s : string) :
  (size (skill_set s) ≤ length (split_comma s))%nat.
Proof.
  unfold skill_set. rewrite split_comma_lower.
  etransitivity; [apply size_list_to_set_le|]. by rewrite length_map.
Qed.

Lemma score_bounds_aux (u : User) (o : Opportunity) :
  0 ≤ skill_matches u o
  ∧ skill_matches u o ≤ score u o
  ∧ score u o ≤ skill_matches u o + 4.
Proof.
  split; [apply skill_matches_nonneg|]. rewrite score_sum.
  destruct (location_match u o), (min_stipend_ok u o),
    (max_stipend_ok u o), (conversion_match u o); simpl; lia.
Qed.

(** X1.  The total score lies between the skill-match count and that
    count plus four, and the skill-match count is at most the number of
    comma-separated tokens of either text. *)
Theorem score_bounds (u : User) (o : Opportunity) :
  0 ≤ skill_matches u o
  ∧ skill_matches u o ≤ score u o
  ∧ score u o ≤ skill_matches u o + 4
  ∧ skill_matches u o
    ≤ Z.of_nat (length (split_comma (default "" (skills u))))
  ∧ skill_matches u o
    ≤ Z.of_nat (length (split_comma (required_skills o))).
Proof.
  destruct (score_bounds_aux u o) as (H0 & H1 & H2).
  split; [done|]. split; [done|]. split; [done|].
  clear H0 H1 H2.
  { unfold skill_matches, student_skills, opp_skills.
    rewrite or_str_empty. split; apply inj_le.
    + etransitivity; [|apply skill_set_size_le].
      apply subseteq_size. intros t. rewrite elem_of_intersection. tauto.
    + etransitivity; [|apply skill_set_size_le].
      apply subseteq_size. intros t. rewrite elem_of_intersection. tauto. }
Qed.

(** X2.  The ranked output holds exactly the entries of the listed
    opportunities with a positive score, each with its actual score and
    skill-match count, and as many entries as there are such
    opportunities. *)
Theorem ranked_complete (u : User) (opps : list Opportunity) :
  (∀ m : Match,
      m ∈ ranked u opps ↔
      ∃ o, o ∈ opps ∧ 0 < score u o
           ∧ m = (o, score u o, skill_matches u o))
  ∧ length (ranked u opps) = length (filter (λ o, 0 < score u o) opps).
Proof.
  split; [intros m; apply elem_of_ranked|].
  unfold ranked. rewrite (Permutation_length (sort_desc_perm _)).
  by rewrite collect_filter, length_map.
Qed.

Lemma collect_nil (u : User) (opps : list Opportunity) :
  collect u opps = [] ↔ ∀ o, o ∈ opps → score u o = 0.
Proof.
  induction opps as [|o rest IH]; simpl.
  - split; [|done]. intros _ o Ho. by apply not_elem_of_nil in Ho.
  - pose proof (score_nonneg u o).
    destruct (Z.ltb_spec 0 (score u o)).
    + split; [done|]. intros H'. specialize (H' o (list_elem_of_here _ _)).
      lia.
    + rewrite IH. split.
      * intros Hr x [->|Hx]%elem_of_cons; [lia|by apply Hr].
      * intros Hr x Hx. apply Hr. by apply list_elem_of_further.
Qed.

(** X3.  The tab shows the "no opportunities match" notice exactly when
    every listed opportunity scores 0 (in particular for an empty
    listing); otherwise it shows the ranked list. *)
Theorem recommended_info_iff (u : User) (opps : list Opportunity) :
  (recommended u opps = Info "No opportunities match your preferences yet."
   ↔ ∀ o, o ∈ opps → score u o = 0)
  ∧ (recommended u opps = Listing (ranked u opps)
     ↔ ∃ o, o ∈ opps ∧ 0 < score u o).
Proof.
  pose proof (collect_nil u opps) as Hnil. unfold recommended.
  destruct (collect u opps) as [|m l] eqn:E.
  - split; [split; [intros _; by apply Hnil|done]|].
    split; [done|]. intros (o & Ho & Hpos).
    rewrite (proj1 Hnil eq_refl o Ho) in Hpos. lia.
  - assert (Hm : m ∈ collect u opps) by (rewrite E; apply list_elem_of_here).
    apply elem_of_collect in Hm as (o & Ho & Hpos & _).
    split; [split; [done|]|split; [by eauto|done]].
    intros Hz. rewrite (Hz o Ho) in Hpos. lia.
Qed.

Lemma split_comma_trailing (r : string) :
  split_comma (r +:+ ",") = (split_comma r ++ [""])%list.
Proof.
  induction r as [|c r IH]; [done|].
  change (String c r +:+ ",") with (String c (r +:+ ",")). simpl.
  rewrite IH. destruct (Ascii.eqb c comma); [done|].
  by destruct (split_comma_cons r) as (t & ts & ->).
Qed.

Lemma no_skills_singleton (u : User) :
  truthy_str (skills u) = false → student_skills u = {[ "" ]}.
Proof.
  intros H. unfold student_skills, or_str. rewrite H.
  unfold skill_set. simpl. apply set_eq. intros t.
  rewrite elem_of_union, elem_of_singleton, elem_of_empty. tauto.
Qed.

Lemma empty_token_in_opp_skills (o : Opportunity) :
  "" ∈ split_comma (required_skills o) → "" ∈ opp_skills o.
Proof.
  intros H. unfold opp_skills. rewrite skill_set_token_set.
  apply elem_of_token_set. by exists "".
Qed.

(** X4.  A student whose skills are unset or empty has the one-token skill
    set of the empty token, so an opportunity whose required skills
    contain an empty token (a trailing comma is enough) counts one skill
    match and is recommended. *)
Theorem empty_token_is_a_match (u : User) (o : Opportunity)
    (opps : list Opportunity) :
  truthy_str (skills u) = false →
  "" ∈ split_comma (required_skills o) →
  o ∈ opps →
  skill_matches u o = 1
  ∧ (o, score u o, 1) ∈ ranked u opps
  ∧ ∀ r : string, "" ∈ split_comma (r +:+ ",").
Proof.
  intros Hs He Ho.
  assert (Hk : skill_matches u o = 1).
  { unfold skill_matches. rewrite (no_skills_singleton u Hs).
    replace ({[ "" ]} ∩ opp_skills o) with ({[ "" ]} : gset string).
    - by rewrite size_singleton.
    - apply set_eq. intros t.
      rewrite elem_of_intersection, elem_of_singleton.
      split; [|tauto]. intros ->. split; [done|].
      by apply empty_token_in_opp_skills. }
  split; [done|]. split.
  - apply elem_of_ranked. exists o. split; [done|].
    pose proof (proj1 (proj2 (score_bounds_aux u o))) as Hb.
    unfold entry. rewrite Hk in *. split; [lia|done].
  - intros r. rewrite split_comma_trailing. apply elem_of_app. right.
    apply list_elem_of_here.
Qed.

Lemma empty_token_is_a_match_witness :
  truthy_str (skills blank_student) = false
  ∧ skill_matches blank_student trailing_comma_opp = 1
  ∧ (trailing_comma_opp, score blank_student trailing_comma_opp, 1)
      ∈ ranked blank_student [scenario_opp; trailing_comma_opp].
Proof.
  assert (H1 : truthy_str (skills blank_student) = false) by reflexivity.
  assert (H2 : "" ∈ split_comma (required_skills trailing_comma_opp)).
  { apply list_elem_of_further, list_elem_of_here. }
  assert (H3 : trailing_comma_opp ∈ [scenario_opp; trailing_comma_opp]).
  { apply list_elem_of_further, list_elem_of_here. }
  destruct (empty_token_is_a_match blank_student trailing_comma_opp
              [scenario_opp; trailing_comma_opp] H1 H2 H3) as (K1 & K2 & _).
  split; [exact H1|]. split; [exact K1|exact K2].
Defined.

(** *** Case *)







(** *** The untouched preferences form *)

Lemma truthy_int_or (o : option Z) :
  negb (or_int o 0 =? 0) = truthy_int o
  ∧ (truthy_int o = true → or_int o 0 = default 0 o).
Proof.
  unfold or_int. destruct o as [n|]; simpl; [|done].
  destruct (Z.eqb_spec n 0) as [->|Hn]; simpl; [done|].
  split; [|done]. by apply negb_true_iff, Z.eqb_neq.
Qed.

Lemma saved_defaults_same_score (u : User) (o : Opportunity) :
  score (assign_prefs (form_defaults u) u) o = score u o
  ∧ skill_matches (assign_prefs (form_defaults u) u) o = skill_matches u o.
Proof.
  assert (Hs : student_skills (assign_prefs (form_defaults u) u)
               = student_skills u).
  { unfold student_skills. simpl. rewrite !or_str_empty. done. }
  assert (Hl : location_match (assign_prefs (form_defaults u) u) o
               = location_match u o).
  { unfold location_match. simpl. rewrite or_str_empty.
    by destruct (location_pref u) as [[|c r]|]. }
  assert (Hmin : min_stipend_ok (assign_prefs (form_defaults u) u) o
                 = min_stipend_ok u o).
  { unfold min_stipend_ok. simpl.
    destruct (truthy_int_or (min_stipend_pref u)) as [E1 E2]. rewrite E1.
    destruct (truthy_int (min_stipend_pref u)); [|done]. by rewrite E2. }
  assert (Hmax : max_stipend_ok (assign_prefs (form_defaults u) u) o
                 = max_stipend_ok u o).
  { unfold max_stipend_ok. simpl.
    destruct (truthy_int_or (max_stipend_pref u)) as [E1 E2]. rewrite E1.
    destruct (truthy_int (max_stipend_pref u)); [|done]. by rewrite E2. }
  assert (Hc : conversion_match (assign_prefs (form_defaults u) u) o
               = conversion_match u o).
  { unfold conversion_match, or_bool. simpl.
    by destruct (placement_conversion_pref u) as [[]|]. }
  unfold score, skill_matches. by rewrite Hs, Hl, Hmin, Hmax, Hc.
Qed.

(** X6.  Saving the preferences form without touching it replaces unset
    preferences by empty text, 0 and false, and this changes nothing for
    the engine: every opportunity keeps its score and the ranked list is
    the same. *)
Theorem saving_untouched_form_keeps_ranking (u : User)
    (opps : list Opportunity) :
  (∀ o : Opportunity, score (assign_prefs (form_defaults u) u) o = score u o)
  ∧ ranked (assign_prefs (form_defaults u) u) opps = ranked u opps
  ∧ recommended (assign_prefs (form_defaults u) u) opps = recommended u opps.
Proof.
  assert (Hc : collect (assign_prefs (form_defaults u) u) opps
               = collect u opps).
  { induction opps as [|o rest IH]; simpl; [done|].
    destruct (saved_defaults_same_score u o) as [-> ->]. by rewrite IH. }
  split; [intros o; apply saved_defaults_same_score|].
  unfold recommended, ranked. by rewrite Hc.
Qed.

End RecommendMore.

(** ** Further properties of the store operations *)

Module PortalMore.
Import Text Preferences Portal Pages PortalFacts.

(** *** Applying for the first time *)

Lemma existing_application_none (apps : list Application) (sid oid : Z) :
  existing_application apps sid oid = None ↔ (sid, oid) ∉ map pair_of apps.
Proof.
  unfold existing_application. induction apps as [|a apps IH]; simpl.
  - split; [|done]. intros _ H. by apply not_elem_of_nil in H.
  - rewrite filter_cons, not_elem_of_cons. case_decide as Ha; simpl.
    + split; [done|]. intros [Hne _]. destruct Ha as [<- <-]. done.
    + rewrite IH. split; [|tauto]. intros Hn. split; [|done].
      unfold pair_of. intros [= -> ->]. tauto.
Qed.

(** X7.  When no application of the student for the opportunity is stored,
    applying appends exactly one row: for that student and opportunity, in
    status applied with mentor status pending and no comment, under a
    primary key no stored application has; users and opportunities are
    untouched and the success message is shown. *)
Theorem first_application_is_stored (e : Env) (u : User) (o : Opportunity)
    (s : Store) :
  (user_id u, opp_id o) ∉ map pair_of (applications s) →
  ∃ a : Application,
    apply_to_opportunity e u o s
    = ({| users := users s; opportunities := opportunities s;
          applications := applications s ++ [a] |},
       Success "Applied successfully!")
    ∧ student_id a = user_id u ∧ opportunity_id a = opp_id o
    ∧ status a = applied ∧ mentor_status a = Some "pending"
    ∧ mentor_comments a = None
    ∧ applied_date a = utcnow e
    ∧ (app_id a ∉ map app_id (applications s)).
Proof.
  intros Hnew. apply existing_application_none in Hnew.
  exists (new_application e (applications s) (user_id u) (opp_id o)).
  unfold apply_to_opportunity. rewrite Hnew.
  repeat apply conj; try reflexivity. apply next_id_fresh.
Qed.

Lemma first_application_is_stored_witness :
  ∃ a : Application,
    applications
      (fst (apply_to_opportunity env1 Recommend.scenario_student
              Recommend.scenario_opp demo_store)) = [a]
    ∧ status a = applied ∧ mentor_status a = Some "pending".
Proof.
  destruct (first_application_is_stored env1 Recommend.scenario_student
              Recommend.scenario_opp demo_store)
    as (a & Happ & _ & _ & Hs & Hm & _).
  { apply not_elem_of_nil. }
  exists a. rewrite Happ. split; [reflexivity|]. split; [exact Hs|exact Hm].
Defined.

(** *** What the mentor's page keeps of every row *)

Lemma faculty_loop_map {B : Type} (f : Application → B) (us : list User)
    (os : list Opportunity) (pressed : option string)
    (apps : list Application) :
  (∀ a, f (decide_row pressed a) = f a) →
  map f (fst (faculty_loop us os pressed apps)) = map f apps.
Proof.
  intros Hf. induction apps as [|a rest IH]; simpl; [done|].
  destruct (faculty_loop us os pressed rest) as [rest' ok]. simpl in IH.
  destruct (is_pending a); simpl; [|by rewrite IH].
  destruct (get_user us (student_id a)); [|done].
  destruct (get_opportunity os (opportunity_id a)); [|done].
  simpl. by rewrite Hf, IH.
Qed.

Lemma faculty_loop_Forall (P : Application → Prop) (us : list User)
    (os : list Opportunity) (pressed : option string)
    (apps : list Application) :
  (∀ a, P a → P (decide_row pressed a)) →
  Forall P apps → Forall P (fst (faculty_loop us os pressed apps)).
Proof.
  intros HP. induction 1 as [|a rest Ha Hrest IH]; simpl; [constructor|].
  destruct (faculty_loop us os pressed rest) as [rest' ok]. simpl in IH.
  destruct (is_pending a); simpl; [|by constructor].
  destruct (get_user us (student_id a)); [|by constructor].
  destruct (get_opportunity os (opportunity_id a)); [|by constructor].
  simpl. constructor; [by apply HP|done].
Qed.

Lemma decide_row_origin (pressed : option string) (a : Application) :
  origin (decide_row pressed a) = origin a.
Proof. by destruct (decide_row_cases pressed a) as [->|[->| ->]]. Qed.

Lemma decide_row_lockstep (pressed : option string) (a : Application) :
  in_lockstep a → in_lockstep (decide_row pressed a).
Proof.
  intros Ha. destruct (decide_row_cases pressed a) as [->|[->| ->]]; [done|..].
  - right. left. done.
  - right. right. done.
Qed.

(** *** Invariants of every sequence of operations *)

Lemma apps_of_faculty (pressed : option string) (s : Store) :
  applications (fst (faculty_dashboard pressed s))
  = fst (faculty_loop (users s) (opportunities s) pressed (applications s)).
Proof. unfold faculty_dashboard. by destruct (faculty_loop _ _ _ _). Qed.

Lemma step_pairs (s : Store) (act : Action) :
  NoDup (map pair_of (applications s)) →
  NoDup (map pair_of (applications (step s act))).
Proof.
  intros Hnd. destruct act as [e u o|u f|pressed|e u f]; simpl.
  - unfold apply_to_opportunity.
    destruct (existing_application _ _ _) eqn:E; simpl; [done|].
    apply existing_application_none in E.
    rewrite map_app. apply NoDup_app. split; [done|]. split.
    + intros x Hx [->|H]%elem_of_cons; [done|by apply not_elem_of_nil in H].
    + apply NoDup_singleton.
  - unfold save_preferences. by destruct (get_user _ _).
  - rewrite apps_of_faculty, faculty_loop_map; [done|].
    intros a. pose proof (decide_row_origin pressed a) as H.
    unfold origin, pair_of in *. congruence.
  - unfold post_opportunity. by destruct (negb _).
Qed.

(** X8.  If no two stored applications share a (student, opportunity)
    pair, then none do after any sequence of operations. *)
Theorem pairs_stay_unique (s : Store) (acts : list Action) :
  NoDup (map pair_of (applications s)) →
  NoDup (map pair_of (applications (run s acts))).
Proof.
  revert s. induction acts as [|act acts IH]; intros s Hnd; [done|].
  simpl. apply IH. by apply step_pairs.
Qed.

Lemma pairs_stay_unique_witness :
  NoDup (map pair_of
           (applications
              (run applied_store
                 [PressApply env2 Recommend.scenario_student
                    Recommend.scenario_opp;
                  PressApply env2 Recommend.novice_student
                    Recommend.scenario_opp;
                  FacultyRun (Some "appr-app-01234567")]))).
Proof.
  apply (pairs_stay_unique applied_store). apply NoDup_singleton.
Defined.

Lemma step_lockstep (s : Store) (act : Action) :
  Forall in_lockstep (applications s) →
  Forall in_lockstep (applications (step s act)).
Proof.
  intros Hall. destruct act as [e u o|u f|pressed|e u f]; simpl.
  - unfold apply_to_opportunity.
    destruct (existing_application _ _ _); simpl; [done|].
    apply Forall_app. split; [done|].
    constructor; [|constructor]. left. done.
  - unfold save_preferences. by destruct (get_user _ _).
  - rewrite apps_of_faculty. apply faculty_loop_Forall; [|done].
    intros a. apply decide_row_lockstep.
  - unfold post_opportunity. by destruct (negb _).
Qed.

(** X9.  The status and the mentor status move together: if every stored
    application is applied/pending, approved/approved or
    rejected/rejected, the same holds after any sequence of operations. *)
Theorem statuses_stay_in_lockstep (s : Store) (acts : list Action) :
  Forall in_lockstep (applications s) →
  Forall in_lockstep (applications (run s acts)).
Proof.
  revert s. induction acts as [|act acts IH]; intros s Hall; [done|].
  simpl. apply IH. by apply step_lockstep.
Qed.

Lemma statuses_stay_in_lockstep_witness :
  Forall in_lockstep
    (applications
       (run applied_store
          [FacultyRun (Some "rej-app-01234567");
           PressApply env2 Recommend.novice_student Recommend.scenario_opp])).
Proof.
  apply (statuses_stay_in_lockstep applied_store).
  constructor; [|constructor]. left. split; reflexivity.
Defined.

(** *** Keys, and what is never changed or deleted *)

Lemma update_user_identity (i : Z) (g : User → User) (us : list User) :
  (∀ r, identity (g r) = identity r) →
  map identity (update_user i g us) = map identity us.
Proof.
  intros Hg. induction us as [|r rest IH]; simpl; [done|].
  case_decide; simpl; [by rewrite Hg|by rewrite IH].
Qed.

Lemma step_users (s : Store) (act : Action) :
  map identity (users (step s act)) = map identity (users s).
Proof.
  destruct act as [e u o|u f|pressed|e u f]; simpl.
  - unfold apply_to_opportunity. by destruct (existing_application _ _ _).
  - unfold save_preferences. destruct (get_user _ _); [|done]. simpl.
    by apply update_user_identity.
  - unfold faculty_dashboard. by destruct (faculty_loop _ _ _ _).
  - unfold post_opportunity. by destruct (negb _).
Qed.

Lemma step_opportunities (s : Store) (act : Action) :
  opportunities s `prefix_of` opportunities (step s act).
Proof.
  destruct act as [e u o|u f|pressed|e u f]; simpl.
  - unfold apply_to_opportunity. by destruct (existing_application _ _ _).
  - unfold save_preferences. by destruct (get_user _ _).
  - unfold faculty_dashboard. by destruct (faculty_loop _ _ _ _).
  - unfold post_opportunity. destruct (negb _); simpl; [done|].
    by apply prefix_app_r.
Qed.

Lemma step_origins (s : Store) (act : Action) :
  map origin (applications s) `prefix_of` map origin (applications (step s act)).
Proof.
  destruct act as [e u o|u f|pressed|e u f]; simpl.
  - unfold apply_to_opportunity.
    destruct (existing_application _ _ _); simpl; [done|].
    rewrite map_app. by apply prefix_app_r.
  - unfold save_preferences. by destruct (get_user _ _).
  - rewrite apps_of_faculty, faculty_loop_map; [done|].
    apply decide_row_origin.
  - unfold post_opportunity. by destruct (negb _).
Qed.

Lemma store_is_append_only_users (s : Store) (acts : list Action) :
  map identity (users (run s acts)) = map identity (users s).
Proof.
  revert s. induction acts as [|act acts IH]; intros s; [done|].
  simpl. by rewrite IH, step_users.
Qed.

(** X10.  No operation creates, deletes or re-identifies a user (only the
    preference fields can change), and opportunities and applications are
    only ever appended: after any sequence of operations the stored
    opportunities are still there unchanged and in place, and so are the
    key, uid, student, opportunity and date of every stored
    application. *)
Theorem store_is_append_only (s : Store) (acts : list Action) :
  map identity (users (run s acts)) = map identity (users s)
  ∧ opportunities s `prefix_of` opportunities (run s acts)
  ∧ map origin (applications s)
      `prefix_of` map origin (applications (run s acts)).
Proof.
  revert s. induction acts as [|act acts IH]; intros s; [done|].
  simpl. destruct (IH (step s act)) as (Hu & Ho & Ha).
  split; [by rewrite Hu, step_users|]. split.
  - etransitivity; [apply step_opportunities|done].
  - etransitivity; [apply step_origins|done].
Qed.

Lemma step_app_ids (s : Store) (act : Action) :
  NoDup (map app_id (applications s)) →
  NoDup (map app_id (applications (step s act))).
Proof.
  intros Hnd. destruct act as [e u o|u f|pressed|e u f]; simpl.
  - unfold apply_to_opportunity.
    destruct (existing_application _ _ _); simpl; [done|].
    rewrite map_app. apply NoDup_app. split; [done|]. split.
    + intros x Hx [->|H]%elem_of_cons; [|by apply not_elem_of_nil in H].
      by apply next_id_fresh in Hx.
    + apply NoDup_singleton.
  - unfold save_preferences. by destruct (get_user _ _).
  - rewrite apps_of_faculty, faculty_loop_map; [done|].
    intros a. pose proof (decide_row_origin pressed a) as H.
    unfold origin in H. congruence.
  - unfold post_opportunity. by destruct (negb _).
Qed.

Lemma step_opp_ids (s : Store) (act : Action) :
  NoDup (map opp_id (opportunities s)) →
  NoDup (map opp_id (opportunities (step s act))).
Proof.
  intros Hnd. destruct act as [e u o|u f|pressed|e u f]; simpl.
  - unfold apply_to_opportunity. by destruct (existing_application _ _ _).
  - unfold save_preferences. by destruct (get_user _ _).
  - unfold faculty_dashboard. by destruct (faculty_loop _ _ _ _).
  - unfold post_opportunity. destruct (negb _); simpl; [done|].
    rewrite map_app. apply NoDup_app. split; [done|]. split.
    + intros x Hx [->|H]%elem_of_cons; [|by apply not_elem_of_nil in H].
      by apply next_id_fresh in Hx.
    + apply NoDup_singleton.
Qed.

(** X11.  Primary keys stay unique: if the stored applications have
    distinct keys and the stored opportunities have distinct keys, this is
    still so after any sequence of operations. *)
Theorem keys_stay_unique (s : Store) (acts : list Action) :
  NoDup (map app_id (applications s)) →
  NoDup (map opp_id (opportunities s)) →
  NoDup (map app_id (applications (run s acts)))
  ∧ NoDup (map opp_id (opportunities (run s acts))).
Proof.
  revert s. induction acts as [|act acts IH]; intros s Ha Ho; [done|].
  simpl. apply IH; [by apply step_app_ids|by apply step_opp_ids].
Qed.

Lemma keys_stay_unique_witness :
  NoDup (map app_id
           (applications
              (run demo_store
                 [PressApply env1 Recommend.scenario_student
                    Recommend.scenario_opp;
                  SubmitPost env2 placement_user complete_form;
                  PressApply env2 Recommend.novice_student
                    Recommend.scenario_opp])))
  ∧ NoDup (map opp_id
             (opportunities
                (run demo_store
                   [PressApply env1 Recommend.scenario_student
                      Recommend.scenario_opp;
                    SubmitPost env2 placement_user complete_form;
                    PressApply env2 Recommend.novice_student
                      Recommend.scenario_opp]))).
Proof.
  apply (keys_stay_unique demo_store).
  - apply NoDup_nil_2.
  - apply NoDup_singleton.
Defined.

(** *** Logging in is unaffected *)

Lemma verify_user_by_identity (pwd_verify : string → string → bool)
    (us1 us2 : list User) (e p : string) :
  map identity us1 = map identity us2 →
  option_map user_id (Auth.verify_user pwd_verify us1 e p)
  = option_map user_id (Auth.verify_user pwd_verify us2 e p).
Proof.
  unfold Auth.verify_user, Auth.first_by_email.
  revert us2. induction us1 as [|a us1 IH]; intros [|b us2] Hm;
    try done.
  pose proof (f_equal (hd (identity a)) Hm) as Hab.
  pose proof (f_equal (@tl _) Hm) as Hrest. simpl in Hab, Hrest.
  rewrite !filter_cons.
  assert (email a = email b ∧ user_id a = user_id b
          ∧ hashed_password a = hashed_password b) as (He & Hi & Hh).
  { unfold identity in Hab. by inversion Hab. }
  rewrite He. case_decide; simpl.
  - rewrite Hh. destruct (pwd_verify p (hashed_password b)); simpl; [|done].
    by rewrite Hi.
  - by apply IH.
Qed.

(** X12.  No sequence of operations changes who can log in: for every
    e-mail address and password, verification against the users of the
    later store answers with the same user id, or fails, as it does
    against the users of the earlier store. *)
Theorem login_outcome_is_stable (pwd_verify : string → string → bool)
    (s : Store) (acts : list Action) (e p : string) :
  option_map user_id (Auth.verify_user pwd_verify (users (run s acts)) e p)
  = option_map user_id (Auth.verify_user pwd_verify (users s) e p).
Proof.
  apply verify_user_by_identity.
  apply (store_is_append_only_users s acts).
Qed.

End PortalMore.

(** ** The pages *)

Module PagesFacts.
Import Text Preferences Portal Pages PortalFacts PortalMore.

(** *** Looking rows up *)

Lemma head_filter_app {A : Type} (P : A → Prop) `{∀ x, Decision (P x)}
    (l k : list A) :
  head (filter P (l ++ k)%list)
  = match head (filter P l) with
    | Some x => Some x
    | None => head (filter P k)
    end.
Proof.
  induction l as [|x l IH]; simpl; [done|].
  rewrite !filter_cons. by case_decide.
Qed.

Lemma head_filter_elem {A : Type} (P : A → Prop) `{∀ x, Decision (P x)}
    (l : list A) (x : A) :
  x ∈ l → P x → is_Some (head (filter P l)).
Proof.
  intros Hin HP.
  assert (Hf : x ∈ filter P l) by (by apply list_elem_of_filter).
  destruct (filter P l); [by apply not_elem_of_nil in Hf|by eexists].
Qed.

Lemma head_filter_unique {A B : Type} `{EqDecision B} (key : A → B)
    (l : list A) (x : A) :
  NoDup (map key l) → x ∈ l →
  head (filter (λ y, key y = key x) l) = Some x.
Proof.
  induction l as [|y l IH]; intros Hnd Hin; [by apply not_elem_of_nil in Hin|].
  simpl in Hnd. apply NoDup_cons in Hnd as [Hy Hnd].
  rewrite filter_cons. apply elem_of_cons in Hin as [->|Hin].
  - by rewrite decide_True.
  - case_decide as Hk; [|by apply IH].
    exfalso. apply Hy. rewrite Hk. apply list_elem_of_In, in_map.
    by apply list_elem_of_In.
Qed.

Lemma get_user_update (i : Z) (g : User → User) (us : list User) (j : Z) :
  (∀ r, user_id (g r) = user_id r) →
  get_user (update_user i g us) j
  = if decide (j = i) then g <$> get_user us i else get_user us j.
Proof.
  intros Hg. unfold get_user. destruct (decide (j = i)) as [->|Hj].
  - induction us as [|r rest IH]; simpl; [done|].
    destruct (decide (user_id r = i)) as [Hr|Hr].
    + rewrite !filter_cons, Hg. by rewrite !decide_True.
    + rewrite !filter_cons. by rewrite !decide_False.
  - induction us as [|r rest IH]; simpl; [done|].
    destruct (decide (user_id r = i)) as [Hr|Hr].
    + rewrite !filter_cons, Hg. rewrite !decide_False by congruence. done.
    + rewrite !filter_cons. case_decide; [done|]. exact IH.
Qed.

(** X13.  Saving preferences is a write to one row: afterwards the
    student's row holds the submitted values and is otherwise as before,
    every other user's row, every opportunity and every application is
    unchanged; when the student's row is missing nothing is written. *)
Theorem save_preferences_round_trip (u : User) (f : PrefsForm) (s : Store) :
  (∀ r : User,
      get_user (users s) (user_id u) = Some r →
      get_user (users (fst (save_preferences u f s))) (user_id u)
      = Some (assign_prefs f r)
      ∧ snd (save_preferences u f s) = Some (Success "Preferences saved!"))
  ∧ (∀ j : Z, j ≠ user_id u →
      get_user (users (fst (save_preferences u f s))) j
      = get_user (users s) j)
  ∧ opportunities (fst (save_preferences u f s)) = opportunities s
  ∧ applications (fst (save_preferences u f s)) = applications s
  ∧ (get_user (users s) (user_id u) = None →
      save_preferences u f s = (s, None)).
Proof.
  unfold save_preferences.
  destruct (get_user (users s) (user_id u)) as [r0|] eqn:E; simpl.
  - split; [|split; [|done]].
    + intros r [= <-]. split; [|done].
      rewrite get_user_update by done. by rewrite decide_True, E.
    + intros j Hj. rewrite get_user_update by done.
      by rewrite decide_False.
  - done.
Qed.

Lemma save_preferences_round_trip_witness :
  get_user
    (users (fst (save_preferences Recommend.novice_student
                   (form_defaults Recommend.novice_student)
                   (mkStore [Recommend.scenario_student;
                             Recommend.novice_student] [] [])))) 5
  = Some saved_novice.
Proof.
  apply (proj1 (save_preferences_round_trip Recommend.novice_student
                  (form_defaults Recommend.novice_student)
                  (mkStore [Recommend.scenario_student;
                            Recommend.novice_student] [] []))
           Recommend.novice_student).
  reflexivity.
Defined.

(** X14.  A posted opportunity can be read back: after a successful post,
    looking up the new primary key yields the posted record, and every
    key that resolved before resolves to the same record as before. *)
Theorem posted_opportunity_is_found (e : Env) (u : User) (f : PostForm)
    (s : Store) :
  mandatory_filled f = true →
  get_opportunity (opportunities (fst (post_opportunity e u f s)))
    (next_id (map opp_id (opportunities s)))
  = Some (new_opportunity e (opportunities s) u f)
  ∧ ∀ (i : Z) (o : Opportunity),
      get_opportunity (opportunities s) i = Some o →
      get_opportunity (opportunities (fst (post_opportunity e u f s))) i
      = Some o.
Proof.
  intros Hf. unfold post_opportunity. rewrite Hf. simpl.
  unfold get_opportunity. split.
  - rewrite head_filter_app.
    destruct (head (filter _ (opportunities s))) as [o|] eqn:E.
    + exfalso. apply (next_id_fresh (map opp_id (opportunities s))).
      assert (Ho : o ∈ filter
                (λ o, opp_id o = next_id (map opp_id (opportunities s)))
                (opportunities s)).
      { destruct (filter _ (opportunities s)); [done|].
        injection E as ->. apply list_elem_of_here. }
      apply list_elem_of_filter in Ho as [<- Ho].
      apply list_elem_of_In, in_map. by apply list_elem_of_In.
    + rewrite filter_cons. by rewrite decide_True.
  - intros i o Ho. by rewrite head_filter_app, Ho.
Qed.

Lemma posted_opportunity_is_found_witness :
  get_opportunity
    (opportunities
       (fst (post_opportunity env1 placement_user complete_form demo_store)))
    2
  = Some (new_opportunity env1 (opportunities demo_store) placement_user
            complete_form).
Proof.
  apply (proj1 (posted_opportunity_is_found env1 placement_user
                  complete_form demo_store eq_refl)).
Defined.

(** *** The browse tab *)

Lemma button_spec (k1 k2 : string) : button (Some k1) k2 = true ↔ k1 = k2.
Proof. unfold button. apply String.eqb_eq. Qed.

Lemma browse_loop_other (e : Env) (u : User) (pressed : option string)
    (opps : list Opportunity) (s : Store) :
  (∀ o, o ∈ opps → button pressed (opp_uid o) = false) →
  browse_loop e u pressed opps s = (s, []).
Proof.
  revert s. induction opps as [|o rest IH]; intros s Hno; cbn [browse_loop];
    [done|].
  rewrite (Hno o) by apply list_elem_of_here.
  apply IH. intros x Hx. apply Hno. by apply list_elem_of_further.
Qed.

Lemma browse_loop_press (e : Env) (u : User) (opps : list Opportunity)
    (o : Opportunity) (s : Store) :
  NoDup (map opp_uid opps) → o ∈ opps →
  browse_loop e u (Some (opp_uid o)) opps s
  = (fst (apply_to_opportunity e u o s), [snd (apply_to_opportunity e u o s)]).
Proof.
  revert s. induction opps as [|x rest IH]; intros s Hnd Hin;
    [by apply not_elem_of_nil in Hin|].
  simpl in Hnd. apply NoDup_cons in Hnd as [Hx Hnd]. cbn [browse_loop].
  apply elem_of_cons in Hin as [->|Hin].
  - rewrite (proj2 (button_spec _ _) eq_refl).
    destruct (apply_to_opportunity e u x s) as [s1 m]. simpl.
    rewrite browse_loop_other; [done|].
    intros y Hy. destruct (button (Some (opp_uid x)) (opp_uid y)) eqn:E;
      [|done].
    apply button_spec in E. exfalso. apply Hx. rewrite E.
    apply list_elem_of_In, in_map. by apply list_elem_of_In.
  - destruct (button (Some (opp_uid o)) (opp_uid x)) eqn:E.
    + apply button_spec in E. exfalso. apply Hx. rewrite <- E.
      apply list_elem_of_In, in_map. by apply list_elem_of_In.
    + by apply IH.
Qed.

(** X15.  On the browse tab, pressing the button of a listed opportunity
    runs the apply handler for that opportunity once and for no other,
    given that the listed uids are distinct; a run without a press, or
    with a key that belongs to no listed opportunity, writes nothing. *)
Theorem browse_press_applies_once (e : Env) (u : User) (s : Store) :
  (∀ o : Opportunity,
      NoDup (map opp_uid (opportunities s)) → o ∈ opportunities s →
      browse_tab e u (Some (opp_uid o)) s
      = (fst (apply_to_opportunity e u o s),
         [snd (apply_to_opportunity e u o s)]))
  ∧ browse_tab e u None s = (s, [])
  ∧ (∀ k : string, k ∉ map opp_uid (opportunities s) →
      browse_tab e u (Some k) s = (s, [])).
Proof.
  unfold browse_tab. split; [|split].
  - intros o Hnd Hin. by apply browse_loop_press.
  - by apply browse_loop_other.
  - intros k Hk. apply browse_loop_other. intros o Ho.
    destruct (button (Some k) (opp_uid o)) eqn:E; [|done].
    apply button_spec in E. exfalso. apply Hk. rewrite E.
    apply list_elem_of_In, in_map. by apply list_elem_of_In.
Qed.

Lemma browse_press_applies_once_witness :
  browse_tab env1 Recommend.scenario_student (Some "opp-00000001") demo_store
  = (applied_store, [Success "Applied successfully!"]).
Proof.
  apply (proj1 (browse_press_applies_once env1 Recommend.scenario_student
                  demo_store) Recommend.scenario_opp).
  - apply NoDup_singleton.
  - apply list_elem_of_here.
Defined.

(** *** Referential integrity *)

Lemma referenced_ext (s s' : Store) (a a' : Application) :
  (∀ j, is_Some (get_user (users s) j) → is_Some (get_user (users s') j)) →
  (∀ j, is_Some (get_opportunity (opportunities s) j) →
        is_Some (get_opportunity (opportunities s') j)) →
  student_id a' = student_id a → opportunity_id a' = opportunity_id a →
  referenced s a → referenced s' a'.
Proof.
  intros Hu Ho Hs Hop [H1 H2]. unfold referenced. rewrite Hs, Hop.
  split; [by apply Hu|by apply Ho].
Qed.

Lemma apply_integrity (e : Env) (u : User) (o : Opportunity) (s : Store) :
  integrity s →
  is_Some (get_user (users s) (user_id u)) →
  is_Some (get_opportunity (opportunities s) (opp_id o)) →
  integrity (fst (apply_to_opportunity e u o s)).
Proof.
  intros Hi Hu Ho. unfold apply_to_opportunity.
  destruct (existing_application _ _ _); simpl; [done|].
  unfold integrity in *. simpl. apply Forall_app. split.
  - eapply Forall_impl; [exact Hi|]. intros a Ha. exact Ha.
  - constructor; [|constructor]. split; simpl; done.
Qed.

Lemma browse_loop_integrity (e : Env) (u : User) (pressed : option string)
    (opps : list Opportunity) (s : Store) :
  integrity s →
  is_Some (get_user (users s) (user_id u)) →
  (∀ o, o ∈ opps → o ∈ opportunities s) →
  integrity (fst (browse_loop e u pressed opps s)).
Proof.
  revert s. induction opps as [|o rest IH]; intros s Hi Hu Hsub;
    cbn [browse_loop]; [done|].
  assert (Hrest : ∀ x, x ∈ rest → x ∈ opportunities s).
  { intros x Hx. apply Hsub. by apply list_elem_of_further. }
  destruct (button pressed (opp_uid o)); [|by apply IH].
  pose proof (apply_integrity e u o s Hi Hu) as Hs1.
  assert (Hsame : users (fst (apply_to_opportunity e u o s)) = users s
                  ∧ opportunities (fst (apply_to_opportunity e u o s))
                    = opportunities s).
  { unfold apply_to_opportunity. by destruct (existing_application _ _ _). }
  destruct (apply_to_opportunity e u o s) as [s1 m]. simpl in *.
  destruct Hsame as [Eu Eo].
  specialize (IH s1).
  destruct (browse_loop e u pressed rest s1) as [s2 ms] eqn:E2. simpl in *.
  apply IH.
  - apply Hs1. apply (head_filter_elem _ _ o); [|done].
    apply Hsub, list_elem_of_here.
  - by rewrite Eu.
  - by rewrite Eo.
Qed.

(** X16.  Every page keeps the references of the application table
    intact: if each stored application names a stored student and a stored
    opportunity, this still holds after a run of the browse tab by a
    stored user, after saving preferences, after a run of the mentor's
    page and after posting. *)
Theorem integrity_is_kept (s : Store) :
  integrity s →
  (∀ (e : Env) (u : User) (pressed : option string),
      is_Some (get_user (users s) (user_id u)) →
      integrity (fst (browse_tab e u pressed s)))
  ∧ (∀ (u : User) (f : PrefsForm), integrity (fst (save_preferences u f s)))
  ∧ (∀ pressed : option string,
      integrity (fst (faculty_dashboard pressed s)))
  ∧ (∀ (e : Env) (u : User) (f : PostForm),
      integrity (fst (post_opportunity e u f s))).
Proof.
  intros Hi. repeat apply conj.
  - intros e u pressed Hu. by apply browse_loop_integrity.
  - intros u f. unfold save_preferences.
    destruct (get_user (users s) (user_id u)) eqn:E; [|done].
    unfold integrity in *. simpl.
    eapply Forall_impl; [exact Hi|]. intros a Ha.
    apply (referenced_ext s _ a a); try done. simpl. intros j Hj.
    rewrite get_user_update by done.
    case_decide as Hd; [|done]. subst j. rewrite E. by eexists.
  - intros pressed. unfold integrity. rewrite apps_of_faculty.
    assert (Hs : ∀ a, referenced s a →
                      referenced (fst (faculty_dashboard pressed s)) a).
    { intros a. apply referenced_ext; try done;
        unfold faculty_dashboard; by destruct (faculty_loop _ _ _ _). }
    apply faculty_loop_Forall.
    + intros a Ha. pose proof (decide_row_origin pressed a) as Ho.
      unfold origin in Ho. unfold referenced in *.
      assert (student_id (decide_row pressed a) = student_id a) as ->
        by congruence.
      assert (opportunity_id (decide_row pressed a) = opportunity_id a)
        as -> by congruence.
      done.
    + eapply Forall_impl; [exact Hi|]. exact Hs.
  - intros e u f. unfold post_opportunity.
    destruct (negb (mandatory_filled f)); [done|].
    unfold integrity in *. simpl.
    eapply Forall_impl; [exact Hi|]. intros a Ha.
    apply (referenced_ext s _ a a); try done. simpl. intros j [o Hj].
    unfold get_opportunity in *. rewrite head_filter_app, Hj. by eexists.
Qed.

Lemma integrity_is_kept_witness :
  integrity
    (fst (browse_tab env1 Recommend.scenario_student (Some "opp-00000001")
            demo_store))
  ∧ integrity (fst (faculty_dashboard (Some "appr-x") demo_store)).
Proof.
  assert (H : integrity demo_store) by constructor.
  destruct (integrity_is_kept demo_store H) as (H1 & _ & H3 & _).
  split; [|apply H3].
  apply H1. by eexists.
Defined.

(** *** The mentor's page on a store with intact references *)






Lemma applied_store_integrity : integrity applied_store.
Proof.
  constructor; [|constructor]. split; by eexists.
Qed.


(** *** The read-only tabs *)

Lemma my_applications_loop_complete (os : list Opportunity)
    (apps : list Application) :
  Forall (λ a, is_Some (get_opportunity os (opportunity_id a))) apps →
  my_applications_loop os apps = (omap (application_line os) apps, true)
  ∧ length (omap (application_line os) apps) = length apps.
Proof.
  induction 1 as [|a rest [o Ho] Hrest [IH1 IH2]]; [done|].
  assert (Hl : application_line os a
               = Some (title o, status a, mentor_status a)).
  { unfold application_line. by rewrite Ho. }
  split.
  - cbn [my_applications_loop omap list_omap]. by rewrite Ho, IH1, Hl.
  - cbn [omap list_omap]. rewrite Hl. simpl. by rewrite IH2.
Qed.

(** X18.  On a store with intact references the "My Applications" tab
    runs to its end and writes one line per stored application of the
    student, in store order, each with the title of its opportunity and
    the row's status and mentor status; applications of other students
    are not shown. *)
Theorem my_applications_lists_own_rows (u : User) (s : Store) :
  integrity s →
  my_applications u s
  = (omap (application_line (opportunities s))
       (filter (λ a, student_id a = user_id u) (applications s)), true)
  ∧ length (fst (my_applications u s))
    = length (filter (λ a, student_id a = user_id u) (applications s)).
Proof.
  intros Hi. unfold my_applications.
  destruct (my_applications_loop_complete (opportunities s)
              (filter (λ a, student_id a = user_id u) (applications s)))
    as [E1 E2].
  - apply Forall_forall. intros a Ha.
    apply list_elem_of_filter in Ha as [_ Ha].
    unfold integrity in Hi. rewrite Forall_forall in Hi.
    by destruct (Hi a Ha).
  - by rewrite E1.
Qed.

Lemma my_applications_lists_own_rows_witness :
  my_applications Recommend.scenario_student approved_store
  = ([("Frontend Developer Intern", approved, Some "approved")], true).
Proof.
  assert (H : integrity approved_store).
  { constructor; [|constructor]. split; by eexists. }
  exact (proj1 (my_applications_lists_own_rows Recommend.scenario_student
                  approved_store H)).
Defined.

Lemma applicant_lines_complete (us : list User) (apps : list Application) :
  Forall (λ a, is_Some (get_user us (student_id a))) apps →
  applicant_lines us apps = (omap (applicant_line us) apps, true).
Proof.
  induction 1 as [|a rest [x Hx] Hrest IH]; simpl; [done|].
  unfold applicant_line at 1. by rewrite Hx, IH.
Qed.

Lemma applicants_loop_complete (us : list User) (apps : list Application)
    (opps : list Opportunity) :
  Forall (λ a, is_Some (get_user us (student_id a))) apps →
  applicants_loop us apps opps
  = (flat_map (applicants_section us apps) opps, true).
Proof.
  intros Hall. induction opps as [|o rest IH]; simpl; [done|].
  rewrite applicant_lines_complete, IH; [done|].
  apply Forall_forall. intros a Ha.
  apply list_elem_of_filter in Ha as [_ Ha].
  rewrite Forall_forall in Hall. by apply Hall.
Qed.

(** X19.  On a store with intact references the "View Applicants" tab
    runs to its end and writes, for each opportunity the user posted and
    in store order, a heading with its title followed by one line per
    application for it with the student's name, e-mail address and the
    status. *)
Theorem view_applicants_lists_posted (u : User) (s : Store) :
  integrity s →
  view_applicants u s
  = (flat_map (applicants_section (users s) (applications s))
       (filter (λ o, posted_by o = Some (user_id u)) (opportunities s)),
     true).
Proof.
  intros Hi. unfold view_applicants. apply applicants_loop_complete.
  eapply Forall_impl; [exact Hi|]. by intros a [Ha _].
Qed.

Lemma view_applicants_lists_posted_witness :
  view_applicants placement_user applied_store
  = ([Heading "Frontend Developer Intern";
      Applicant "Rajesh Kumar" "student@example.com" applied], true).
Proof.
  exact (view_applicants_lists_posted placement_user applied_store
           applied_store_integrity).
Defined.

End PagesFacts.

(** ** Routing and the seed *)

Module MainFacts.
Import Text Portal Pages Auth AuthFacts PagesFacts.

Lemma get_user_unique (us : list User) (u : User) :
  NoDup (map user_id us) → u ∈ us → get_user us (user_id u) = Some u.
Proof. intros Hnd Hin. unfold get_user. by apply head_filter_unique. Qed.

Lemma main_of_stored (us : list User) (u : User) :
  NoDup (map user_id us) → u ∈ us → user_id u ≠ 0 →
  main us (Some (user_id u)) = dashboard_of u.
Proof.
  intros Hnd Hin Hz. unfold main, session_user. simpl.
  apply Z.eqb_neq in Hz. rewrite Hz. simpl.
  rewrite get_user_unique by done. unfold dashboard_of.
  by destruct (role u).
Qed.

(** X20.  After a successful login the next run of [main] shows the
    dashboard of the verified user's role (student, faculty mentor, or the
    shared placement/employer dashboard), provided user ids are unique and
    the id is not 0; a failed login leaves the session as it was; with no
    session, with a session id of 0, with an id that no stored user has,
    and after logout, [main] shows the login page. *)
Theorem login_routes_by_role (pwd_verify : string → string → bool)
    (us : list User) (e p : string) (session : option Z) :
  (∀ u : User,
      verify_user pwd_verify us e p = Some u →
      NoDup (map user_id us) → user_id u ≠ 0 →
      main us (session_after_login (login_ui pwd_verify us e p) session)
      = dashboard_of u)
  ∧ (verify_user pwd_verify us e p = None →
     session_after_login (login_ui pwd_verify us e p) session = session)
  ∧ main us None = LoginPage
  ∧ main us (Some 0) = LoginPage
  ∧ (∀ i : Z, i ∉ map user_id us → main us (Some i) = LoginPage)
  ∧ main us (session_after_logout session) = LoginPage.
Proof.
  repeat apply conj; try done.
  - intros u Hv Hnd Hz. unfold login_ui. rewrite Hv. simpl.
    apply main_of_stored; [done| |done].
    apply verify_user_Some in Hv as [Hf _].
    by apply first_by_email_elem in Hf as [Hin _].
  - intros Hv. unfold login_ui. by rewrite Hv.
  - intros i Hi. unfold main, session_user. simpl.
    destruct (i =? 0); simpl; [done|].
    destruct (get_user us i) as [u|] eqn:E; [|done].
    exfalso. apply Hi. unfold get_user in E.
    assert (Hu : u ∈ filter (λ u, user_id u = i) us).
    { destruct (filter _ us); [done|]. injection E as ->.
      apply list_elem_of_here. }
    apply list_elem_of_filter in Hu as [<- Hu].
    apply list_elem_of_In, in_map. by apply list_elem_of_In.
Qed.

Lemma login_routes_by_role_witness :
  main demo_users
    (session_after_login
       (login_ui demo_verify demo_users "mentor@example.com" "abc") None)
  = FacultyDashboard demo_mentor_row.
Proof.
  apply (proj1 (login_routes_by_role demo_verify demo_users
                  "mentor@example.com" "abc" None) demo_mentor_row).
  - reflexivity.
  - apply (bool_decide_unpack _). vm_compute. exact I.
  - discriminate.
Defined.

Section Seeded.
Variable pwd_hash : string → string.
Variable pwd_verify : string → string → bool.
(** bcrypt accepts a password against its own hash. *)
Hypothesis verify_hash : ∀ p : string, pwd_verify p (pwd_hash p) = true.

(** X21.  On first run [create_db_and_seed] yields four accounts, one per
    role, and one opportunity posted by the placement cell; each account
    logs in with its e-mail address and the password "123" and is routed
    to its role's dashboard, while an existing database is left as it
    is. *)
Theorem seeded_accounts_log_in (e : Env) :
  let s := Seed.create_db_and_seed pwd_hash e None in
  let page a :=
    main (users s)
      (session_after_login (login_ui pwd_verify (users s) a "123") None) in
  page "student@example.com" = StudentDashboard (Seed.u1 pwd_hash)
  ∧ page "placement@example.com"
    = PlacementEmployerDashboard (Seed.u2 pwd_hash)
  ∧ page "mentor@example.com" = FacultyDashboard (Seed.u3 pwd_hash)
  ∧ page "employer@example.com"
    = PlacementEmployerDashboard (Seed.u4 pwd_hash)
  ∧ map role (users s) = [student; placementCell; facultyMentor; employer]
  ∧ map posted_by (opportunities s) = [Some 2]
  ∧ applications s = []
  ∧ ∀ s0 : Store, Seed.create_db_and_seed pwd_hash e (Some s0) = s0.
Proof.
  simpl. unfold login_ui, verify_user, first_by_email. simpl.
  repeat (rewrite filter_cons; simpl;
          first [rewrite decide_True by done
                |rewrite decide_False by discriminate]; simpl).
  rewrite !verify_hash. simpl. repeat apply conj; reflexivity.
Qed.
End Seeded.

Lemma seeded_accounts_log_in_witness :
  main (users (Seed.create_db_and_seed Seed.demo_hash env1 None))
    (session_after_login
       (login_ui demo_verify
          (users (Seed.create_db_and_seed Seed.demo_hash env1 None))
          "employer@example.com" "123") None)
  = PlacementEmployerDashboard (Seed.u4 Seed.demo_hash).
Proof.
  assert (H : ∀ p : string, demo_verify p (Seed.demo_hash p) = true).
  { intros p. unfold demo_verify, Seed.demo_hash. apply String.eqb_refl. }
  exact (proj1 (proj2 (proj2 (proj2
           (seeded_accounts_log_in Seed.demo_hash demo_verify H env1))))).
Defined.

End MainFacts.
